(** * rssant_api.models.feed: feed identity resolution and incremental sync

    A shallow embedding of [src/rssant_api/models/feed.py].  Database tables
    are lists of rows in storage scan order, Django querysets are list
    pipelines over them, Python exceptions are an explicit result type, and
    every model method runs in a small state-and-exception monad over the
    database. *)

From Stdlib Require Import ZArith Strings.Byte.
From stdpp Require Import base option list gmap strings sorting.

Local Open Scope Z_scope.

(** ** Python exceptions and results *)

Inductive Exc : Type :=
  | FeedExistsException   (* rssant_api.models.exceptions *)
  | IntegrityError        (* django.db: a unique constraint was violated *)
  | TypeError             (* Python: ordering None against a value *)
  | DataError             (* django.db: a value does not fit its column *)
  | AssertionError        (* Django's check on batch_size *)
  | BadGzipFile.          (* gzip.decompress on a malformed member *)

Inductive Res (A : Type) : Type :=
  | Ok (a : A)
  | Raise (e : Exc).
Arguments Ok {A} a.
Arguments Raise {A} e.

Definition res_bind {A B} (r : Res A) (k : A → Res B) : Res B :=
  match r with
  | Ok a => k a
  | Raise e => Raise e
  end.

(** ** Python's [sorted]

    [sorted] is stable.  [lt y x] says that [y] orders strictly before [x];
    an element is inserted in front of the first element that does not order
    strictly before it, so elements with equal keys keep their input order.
    [sorted(..., reverse=True)] is the same sort with the flipped comparison
    (it, too, keeps equal keys in input order). *)

Section py_sorted.
Context {A : Type} (lt : A → A → bool).

Fixpoint insert_sorted (x : A) (l : list A) : list A :=
  match l with
  | [] => [x]
  | y :: l' => if lt y x then y :: insert_sorted x l' else x :: l
  end.

Definition sorted (l : list A) : list A := foldr insert_sorted [] l.

(** [y] may stay in front of [x]: [x] does not order strictly before [y]. *)
Definition keeps (y x : A) : Prop := lt x y = false.
End py_sorted.

(** The same sort when the comparison itself may raise (a key holding
    [None] next to a key holding a value). *)

Section py_sorted_raising.
Context {A : Type} (lt : A → A → Res bool).

Fixpoint insert_sorted_r (x : A) (l : list A) : Res (list A) :=
  match l with
  | [] => Ok [x]
  | y :: l' =>
      res_bind (lt y x) (λ b,
        if b then res_bind (insert_sorted_r x l') (λ r, Ok (y :: r))
        else Ok (x :: l))
  end.

Fixpoint sorted_r (l : list A) : Res (list A) :=
  match l with
  | [] => Ok []
  | x :: l' => res_bind (sorted_r l') (insert_sorted_r x)
  end.
End py_sorted_raising.

(** Ordering of optional integers (a nullable DateTimeField or a primary key
    that is [None] before the first save): [==] never raises, [<] raises
    unless both sides hold a value. *)

Definition py_lt (a b : option Z) : Res bool :=
  match a, b with
  | Some x, Some y => Ok (bool_decide (x < y))
  | _, _ => Raise TypeError
  end.

(** Tuples compare on the first component at which they differ. *)
Definition py_tuple_lt (k1 k2 : option Z * option Z) : Res bool :=
  if bool_decide (k1.1 = k2.1) then
    if bool_decide (k1.2 = k2.2) then Ok false else py_lt k1.2 k2.2
  else py_lt k1.1 k2.1.

(** ** Data model *)

(** class FeedStatus *)
Inductive FeedStatus : Type := PENDING | UPDATING | READY | ERROR.

Global Instance FeedStatus_eq_dec : EqDecision FeedStatus.
Proof. solve_decision. Defined.

(** class Feed.  Timestamps are integers (microseconds since the epoch).
    Only the columns that the modelled methods read are kept; the
    descriptive and fingerprint columns written by the crawler are left
    out.  [feed_total_storys] is declared with [**optional]: the column is
    nullable. *)
Record Feed : Type := mkFeed {
  feed_id : Z;
  feed_url : string;
  feed_status : FeedStatus;
  feed_title : option string;
  feed_dt_updated : Z;
  feed_total_storys : option Z;
}.

(** class RawFeed: the two attributes that set_content and get_content touch,
    next to the request columns.  [content] is [None] when absent. *)
Record RawFeed : Type := mkRawFeed {
  raw_feed_id : Z;
  raw_url : string;
  raw_status_code : option Z;
  raw_is_gzipped : bool;
  raw_content : option (list byte);
}.

(** class UserFeed.  [uf_id] is [None] until the object is saved; [uf_feed_id]
    is the nullable foreign key; [uf_story_offset] is nullable with default
    0; [uf_dt_updated] is nullable and has no default; [uf_dt_created] is
    filled on insert (auto_now_add). *)
Record UserFeed : Type := mkUserFeed {
  uf_id : option Z;
  uf_user_id : Z;
  uf_feed_id : option Z;
  uf_status : FeedStatus;
  uf_url : string;
  uf_title : option string;
  uf_story_offset : option Z;
  uf_dt_created : option Z;
  uf_dt_updated : option Z;
}.

(** class FeedUrlMap *)
Record FeedUrlMap : Type := mkFeedUrlMap {
  fum_id : Z;
  fum_source : string;
  fum_target : string;
  fum_dt_created : Z;
}.

Global Instance Feed_eq_dec : EqDecision Feed.
Proof. solve_decision. Defined.
Global Instance UserFeed_eq_dec : EqDecision UserFeed.
Proof. solve_decision. Defined.
Global Instance FeedUrlMap_eq_dec : EqDecision FeedUrlMap.
Proof. solve_decision. Defined.

(** The database: one list per table, in the order a sequential scan yields
    the rows, and the sequence that hands out UserFeed primary keys. *)
Record DB : Type := mkDB {
  tbl_feed : list Feed;
  tbl_user_feed : list UserFeed;
  tbl_feed_url_map : list FeedUrlMap;
  user_feed_seq : Z;
}.

(** ** The monad of model methods: database state and exceptions *)

Definition M (A : Type) : Type := DB → Res A * DB.

Definition ret {A} (a : A) : M A := λ db, (Ok a, db).
Definition raise {A} (e : Exc) : M A := λ db, (Raise e, db).
Definition bind {A B} (m : M A) (k : A → M B) : M B :=
  λ db, match m db with
        | (Ok a, db') => k a db'
        | (Raise e, db') => (Raise e, db')
        end.
Definition lift {A} (r : Res A) : M A := λ db, (r, db).
Definition objects {A} (table : DB → list A) : M (list A) :=
  λ db, (Ok (table db), db).

Notation "x <- m ; k" := (bind m (λ x, k))
  (at level 20, m at level 100, k at level 200, only parsing).

(** ** ContentStore: RawFeed.set_content and RawFeed.get_content *)

(** Python's [gzip] module.  [gzip_decompress] raises on input that is not a
    gzip member. *)
Class Gzip : Type := {
  gzip_compress : list byte → list byte;
  gzip_decompress : list byte → Res (list byte);
}.

(** What the methods rely on: decompression inverts compression, and a gzip
    member is never empty (it starts with the ten-byte header). *)
Class GzipLaws (G : Gzip) : Prop := {
  gzip_decompress_compress : ∀ b, gzip_decompress (gzip_compress b) = Ok b;
  gzip_compress_nonempty : ∀ b, gzip_compress b ≠ [];
}.

(** Truth value of a bytes-or-None object: [None] and [b''] are false. *)
Definition bytes_truthy (content : option (list byte)) : bool :=
  match content with
  | Some (_ :: _) => true
  | _ => false
  end.

(** len(content), evaluated only behind the truth test. *)
Definition bytes_len (content : option (list byte)) : nat :=
  from_option length 0%nat content.

Definition set_content `{Gzip} (self : RawFeed)
    (content : option (list byte)) : RawFeed :=
  if bytes_truthy content && bool_decide (1024 ≤ bytes_len content)%nat then
    {| raw_feed_id := raw_feed_id self; raw_url := raw_url self;
       raw_status_code := raw_status_code self;
       raw_content := gzip_compress <$> content;
       raw_is_gzipped := true |}
  else
    {| raw_feed_id := raw_feed_id self; raw_url := raw_url self;
       raw_status_code := raw_status_code self;
       raw_content := content;
       raw_is_gzipped := false |}.

Definition get_content `{Gzip} (self : RawFeed)
    (decompress : option bool) : Res (option (list byte)) :=
  let decompress :=
    match decompress with
    | None => raw_is_gzipped self
    | Some d => d
    end in
  let content := raw_content self in
  if bytes_truthy content && decompress then
    match content with
    | Some c => res_bind (gzip_decompress c) (λ b, Ok (Some b))
    | None => Ok content
    end
  else Ok content.

(** ** Queryset operations *)

(** ORDER BY on an integer column.  SQL leaves the order of rows with equal
    keys open, so a result that hangs on a tie hangs on how the database
    reads the rows.  Ascending, the rows reach the sort in the order the
    storage scan yields them and rows with equal keys leave it in that
    order.  Descending, the query is answered by reading that ascending
    order backwards (the backward scan of an index on the column, such as
    FeedUrlMap's index on source and dt_created): of rows with equal keys
    the one stored last comes first. *)
Definition order_by {A} (key : A → Z) (q : list A) : list A :=
  sorted (λ y x, bool_decide (key y < key x)) q.
Definition order_by_desc {A} (key : A → Z) (q : list A) : list A :=
  reverse (order_by key q).

(** QuerySet.first(): the first row of the queryset's ordering. *)
Definition first {A} (q : list A) : option A := head q.

(** Ordering of a primary-key column of stored rows. *)
Definition pk_lt (a b : option Z) : bool :=
  match a, b with
  | Some x, Some y => bool_decide (x < y)
  | None, Some _ => true
  | _, _ => false
  end.

(** ** UrlResolver: FeedUrlMap.find_target and FeedUrlMap.find_all_target *)

Definition find_target (source : string) : M (option string) :=
  rows <- objects tbl_feed_url_map ;
  let q := order_by_desc fum_dt_created
             (filter (λ r, fum_source r = source) rows) in
  match first q with
  | Some url_map => ret (Some (fum_target url_map))
  | None => ret None
  end.

(** ORDER BY source, dt_created DESC over the rows of several sources: a
    sort of the scanned rows, which leaves rows with equal source and
    dt_created in storage order. *)
Definition source_recency_lt (y x : FeedUrlMap) : bool :=
  String.ltb (fum_source y) (fum_source x)
  || (bool_decide (fum_source y = fum_source x)
      && bool_decide (fum_dt_created x < fum_dt_created y)).

(** SELECT DISTINCT ON (source): of each run of rows with equal source the
    first row is kept.  [prev] is the source of the row before. *)
Fixpoint distinct_on_source (prev : option string) (q : list FeedUrlMap)
    : list FeedUrlMap :=
  match q with
  | [] => []
  | r :: q' =>
      if bool_decide (prev = Some (fum_source r))
      then distinct_on_source prev q'
      else r :: distinct_on_source (Some (fum_source r)) q'
  end.

Definition find_all_target (source_list : list string)
    : M (gmap string string) :=
  rows <- objects tbl_feed_url_map ;
  let items :=
    distinct_on_source None
      (sorted source_recency_lt
         (filter (λ r, fum_source r ∈ source_list) rows)) in
  ret (foldl (λ url_map item, <[fum_source item := fum_target item]> url_map)
         ∅ items).

(** The rows of one source, the row that find_target's query puts first
    among them, and the row that find_all_target's query keeps of them. *)
Definition by_source (s : string) (r : FeedUrlMap) : Prop := fum_source r = s.
Global Instance by_source_dec s r : Decision (by_source s r).
Proof. unfold by_source. apply _. Defined.

Definition latest (rows : list FeedUrlMap) (s : string) : option FeedUrlMap :=
  first (order_by_desc fum_dt_created (filter (by_source s) rows)).

Definition distinct_latest (rows : list FeedUrlMap) (s : string)
    : option FeedUrlMap :=
  first (sorted (λ y x, bool_decide (fum_dt_created x < fum_dt_created y))
           (filter (by_source s) rows)).

(** A source's rows hold their greatest creation time once. *)
Definition single_latest (rows : list FeedUrlMap) (s : string) : Prop :=
  ∀ r r', r ∈ rows → r' ∈ rows → fum_source r = s → fum_source r' = s →
    (∀ x, x ∈ rows → fum_source x = s → fum_dt_created x ≤ fum_dt_created r) →
    (∀ x, x ∈ rows → fum_source x = s → fum_dt_created x ≤ fum_dt_created r') →
    r = r'.

(** ** SubscriptionStore: the UserFeed table *)

(** unique_together = ('user', 'feed'): a row conflicts with [x] when both
    are bound to the same feed for the same user.  NULL feeds never
    conflict. *)
Definition violates_unique (rows : list UserFeed) (x : UserFeed) : bool :=
  bool_decide (Exists (λ r, uf_user_id r = uf_user_id x
                            ∧ is_Some (uf_feed_id x)
                            ∧ uf_feed_id r = uf_feed_id x) rows).

Definition pk_taken (rows : list UserFeed) (pk : Z) : bool :=
  bool_decide (Exists (λ r, uf_id r = Some pk) rows).

(** The range of an IntegerField column, a 32-bit integer in the database. *)
Definition int4 (n : Z) : Prop := -2147483648 ≤ n ≤ 2147483647.
Global Instance int4_dec n : Decision (int4 n).
Proof. unfold int4. apply _. Defined.

(** story_offset is the integer column that takes a caller's value; a value
    outside the column's range fails the statement with DataError before a
    row is touched.  NULL is allowed. *)
Definition story_offset_fits (x : UserFeed) : bool :=
  from_option (λ n, bool_decide (int4 n)) true (uf_story_offset x).

(** INSERT of one object: the primary key comes from the sequence unless the
    object carries one, dt_created is stamped (auto_now_add), and the unique
    constraints are checked.  Returns the object as it is after the insert
    and the table, or [None] on a constraint violation, next to the
    sequence: a key drawn for a row that is then refused is not handed
    back. *)
Definition inserted (now pk : Z) (x : UserFeed) : UserFeed :=
  {| uf_id := Some pk; uf_user_id := uf_user_id x;
     uf_feed_id := uf_feed_id x; uf_status := uf_status x;
     uf_url := uf_url x; uf_title := uf_title x;
     uf_story_offset := uf_story_offset x;
     uf_dt_created := Some now;
     uf_dt_updated := uf_dt_updated x |}.

Definition insert_row (now : Z) (x : UserFeed) (rows : list UserFeed)
    (seq : Z) : option (UserFeed * list UserFeed) * Z :=
  let pk := default seq (uf_id x) in
  let seq' := if uf_id x is Some _ then seq else seq + 1 in
  let x' := inserted now pk x in
  if pk_taken rows pk || violates_unique rows x then (None, seq')
  else (Some (x', rows ++ [x']), seq').

Definition set_user_feeds (db : DB) (rows : list UserFeed) (seq : Z) : DB :=
  {| tbl_feed := tbl_feed db; tbl_user_feed := rows;
     tbl_feed_url_map := tbl_feed_url_map db; user_feed_seq := seq |}.

(** Model.save(): UPDATE the row with the object's primary key when there is
    one, INSERT otherwise.  The UPDATE writes a new version of the row
    behind the rows already stored, so a scan yields the updated row
    last. *)
Definition save (now : Z) (self : UserFeed) : M UserFeed := λ db,
  let rows := tbl_user_feed db in
  let is_self := λ r : UserFeed, is_Some (uf_id self) ∧ uf_id r = uf_id self in
  if story_offset_fits self then
    if bool_decide (Exists is_self rows) then
      let others := filter (λ r, ¬ is_self r) rows in
      if violates_unique others self
      then (Raise IntegrityError, db)
      else (Ok self, set_user_feeds db (others ++ [self]) (user_feed_seq db))
    else
      match insert_row now self rows (user_feed_seq db) with
      | (Some (self', rows'), seq') =>
          (Ok self', set_user_feeds db rows' seq')
      | (None, seq') => (Raise IntegrityError, set_user_feeds db rows seq')
      end
  else (Raise DataError, db).

(** The rows of one INSERT statement, inserted in turn. *)
Fixpoint insert_all (now : Z) (objs : list UserFeed) (rows : list UserFeed)
    (seq : Z) : option (list UserFeed * list UserFeed) * Z :=
  match objs with
  | [] => (Some ([], rows), seq)
  | x :: objs' =>
      match insert_row now x rows seq with
      | (Some (x', rows'), seq') =>
          match insert_all now objs' rows' seq' with
          | (Some (created, rows''), seq'') =>
              (Some (x' :: created, rows''), seq'')
          | (None, seq'') => (None, seq'')
          end
      | (None, seq') => (None, seq')
      end
  end.

(** [objs[i:i + batch_size] for i in range(0, len(objs), batch_size)]; the
    fuel bounds the number of batches. *)
Fixpoint batches {A} (fuel : nat) (batch_size : nat) (objs : list A)
    : list (list A) :=
  match fuel, objs with
  | S fuel', _ :: _ =>
      take batch_size objs :: batches fuel' batch_size (drop batch_size objs)
  | _, _ => []
  end.

Definition batched {A} (batch_size : nat) (objs : list A) : list (list A) :=
  batches (length objs) batch_size objs.

(** One INSERT statement per batch.  A batch with a value out of range
    fails before any of its rows is inserted. *)
Fixpoint insert_batches (now : Z) (bs : list (list UserFeed))
    (rows : list UserFeed) (seq : Z)
    : Res (list UserFeed * list UserFeed) * Z :=
  match bs with
  | [] => (Ok ([], rows), seq)
  | b :: bs' =>
      if forallb story_offset_fits b then
        match insert_all now b rows seq with
        | (Some (created, rows'), seq') =>
            match insert_batches now bs' rows' seq' with
            | (Ok (created', rows''), seq'') =>
                (Ok (created ++ created', rows''), seq'')
            | (Raise e, seq'') => (Raise e, seq'')
            end
        | (None, seq') => (Raise IntegrityError, seq')
        end
      else (Raise DataError, seq)
  end.

(** QuerySet.bulk_create(objs, batch_size), for objects that are new (no
    primary key yet), as create_by_url_s passes them: the batches are
    inserted in list order in one transaction and the objects come back with
    their primary keys set.  When a statement fails the transaction rolls
    the rows back; the keys drawn from the sequence up to the failure stay
    drawn. *)
Definition bulk_create (now : Z) (objs : list UserFeed) (batch_size : Z)
    : M (list UserFeed) := λ db,
  if bool_decide (0 < batch_size) then
    match insert_batches now (batched (Z.to_nat batch_size) objs)
            (tbl_user_feed db) (user_feed_seq db) with
    | (Ok (created, rows), seq) => (Ok created, set_user_feeds db rows seq)
    | (Raise e, seq) => (Raise e, set_user_feeds db (tbl_user_feed db) seq)
    end
  else (Raise AssertionError, db).

(** A client hint: T.dict(id=T.int, dt_updated=T.datetime) *)
Record Hint : Type := mkHint {
  hint_id : Z;
  hint_dt_updated : Z;
}.

(** What query_by_user hands back: a bare list on one path, a pair of the
    total and a list on the other. *)
Inductive QueryResult : Type :=
  | PyList (user_feeds : list UserFeed)
  | PyTuple (total : nat) (user_feeds : list UserFeed).

(** q.exclude(status=FeedStatus.PENDING) *)
Definition exclude_pending (q : list UserFeed) : list UserFeed :=
  filter (λ x, uf_status x ≠ PENDING) q.

(** {x['id']: x['dt_updated'] for x in hints}: a later entry replaces an
    earlier one with the same id. *)
Definition hints_dict (hints : list Hint) : gmap Z Z :=
  foldl (λ d x, <[hint_id x := hint_dt_updated x]> d) ∅ hints.

(** The loop over the (id, dt_updated) projection that collects [updates]. *)
Fixpoint collect_updates (hints : gmap Z Z) (user_feeds : list UserFeed)
    : Res (list (option Z)) :=
  match user_feeds with
  | [] => Ok []
  | user_feed :: rest =>
      match uf_id user_feed ≫= (hints !!.) with
      | None =>
          res_bind (collect_updates hints rest) (λ updates,
            Ok (uf_id user_feed :: updates))
      | Some hinted =>
          res_bind (py_lt (Some hinted) (uf_dt_updated user_feed)) (λ newer,
            res_bind (collect_updates hints rest) (λ updates,
              Ok (if newer : bool then uf_id user_feed :: updates
                  else updates)))
      end
  end.

(** key=lambda x: (x.dt_updated, x.id) *)
Definition changed_key (x : UserFeed) : option Z * option Z :=
  (uf_dt_updated x, uf_id x).

(** [detail] only selects which feed columns are loaded eagerly
    (select_related, defer); it does not change the rows. *)
Definition query_by_user (user_id : Z) (hints : option (list Hint))
    (detail show_pending : bool) : M QueryResult :=
  rows <- objects tbl_user_feed ;
  let q := filter (λ x, uf_user_id x = user_id) rows in
  let q := if show_pending then q else exclude_pending q in
  match hints with
  | None | Some [] => ret (PyList q)
  | Some (hint :: hints') =>
      let hints := hints_dict (hint :: hints') in
      let user_feeds := q in
      let total := length user_feeds in
      updates <- lift (collect_updates hints user_feeds) ;
      rows <- objects tbl_user_feed ;
      let q := filter (λ x, uf_user_id x = user_id ∧ uf_id x ∈ updates) rows in
      let q := if show_pending then q else exclude_pending q in
      user_feeds <-
        lift (sorted_r (λ y x, py_tuple_lt (changed_key x) (changed_key y)) q) ;
      ret (PyTuple total user_feeds)
  end.

(** UserFeed(user_id=..., feed=..., url=..., status=...): the other fields
    take their defaults. *)
Definition new_user_feed (user_id : Z) (feed : option Feed) (url : string)
    (status : FeedStatus) : UserFeed :=
  {| uf_id := None; uf_user_id := user_id; uf_feed_id := feed_id <$> feed;
     uf_status := status; uf_url := url; uf_title := None;
     uf_story_offset := Some 0; uf_dt_created := None;
     uf_dt_updated := None |}.

(** Truth value of a str-or-None: [None] and [''] are false. *)
Definition str_truthy (s : option string) : bool :=
  match s with
  | Some (String _ _) => true
  | _ => false
  end.

Definition create_by_url (url : string) (user_id : Z) : M UserFeed :=
  target_url <- find_target url ;
  feed <-
    (if str_truthy target_url then
       rows <- objects tbl_feed ;
       ret (first (order_by feed_id
                     (filter (λ f, Some (feed_url f) = target_url) rows)))
     else ret None) ;
  match feed with
  | Some f =>
      rows <- objects tbl_user_feed ;
      let user_feed :=
        first (sorted (λ y x, pk_lt (uf_id y) (uf_id x))
                 (filter (λ r, uf_user_id r = user_id
                               ∧ uf_feed_id r = Some (feed_id f)) rows)) in
      match user_feed with
      | Some _ => raise FeedExistsException
      | None => ret (new_user_feed user_id (Some f) url READY)
      end
  | None => ret (new_user_feed user_id None url PENDING)
  end.

Definition update_story_offset (now : Z) (self : UserFeed) (offset : Z)
    : M UserFeed :=
  let self :=
    {| uf_id := uf_id self; uf_user_id := uf_user_id self;
       uf_feed_id := uf_feed_id self; uf_status := uf_status self;
       uf_url := uf_url self; uf_title := uf_title self;
       uf_story_offset := Some offset;
       uf_dt_created := uf_dt_created self;
       uf_dt_updated := Some now |} in
  save now self.

(** The loop of create_by_url_s that fills [user_feed_bulk_creates]. *)
Fixpoint bulk_candidates (url_map : gmap string string)
    (feed_map : gmap string Feed) (user_feed_map : gmap Z UserFeed)
    (user_id : Z) (urls : list string) : list UserFeed :=
  match urls with
  | [] => []
  | url :: urls' =>
      let rest :=
        bulk_candidates url_map feed_map user_feed_map user_id urls' in
      match url_map !! url ≫= (feed_map !!.) with
      | Some feed =>
          if bool_decide (is_Some (user_feed_map !! feed_id feed)) then rest
          else new_user_feed user_id (Some feed) url READY :: rest
      | None => new_user_feed user_id None url PENDING :: rest
      end
  end.

(** for x in found_feeds: feed_map[x.url] = x *)
Definition feed_map_of (found_feeds : list Feed) : gmap string Feed :=
  foldl (λ m x, <[feed_url x := x]> m) ∅ found_feeds.

(** for x in found_user_feeds: user_feed_map[x.feed_id] = x *)
Definition user_feed_map_of (found_user_feeds : list UserFeed)
    : gmap Z UserFeed :=
  foldl (λ m x, if uf_feed_id x is Some fid then <[fid := x]> m else m)
    ∅ found_user_feeds.

Definition create_by_url_s (now : Z) (urls : list string) (user_id : Z)
    (batch_size : Z) : M (list UserFeed) :=
  match urls with
  | [] => ret []
  | _ :: _ =>
      url_map <- find_all_target urls ;
      rows <- objects tbl_feed ;
      let found_feeds :=
        filter (λ f, feed_url f ∈ (map_img url_map : gset string)) rows in
      let feed_map := feed_map_of found_feeds in
      rows <- objects tbl_user_feed ;
      let found_user_feeds :=
        filter (λ r, uf_user_id r = user_id
                     ∧ uf_feed_id r ∈ (λ f, Some (feed_id f)) <$> found_feeds)
          rows in
      let user_feed_map := user_feed_map_of found_user_feeds in
      let user_feed_bulk_creates :=
        bulk_candidates url_map feed_map user_feed_map user_id urls in
      created <- bulk_create now user_feed_bulk_creates batch_size ;
      let user_feeds := found_user_feeds ++ created in
      ret (sorted (λ y x, String.ltb (uf_url y) (uf_url x)) user_feeds)
  end.

(** ** SubscriptionStore: lookup and deletion by primary key *)

(** What QuerySet.get raises. *)
Inductive GetExc : Type := DoesNotExist | MultipleObjectsReturned.

(** UserFeed.get_by_pk.  [detail] only selects which feed columns are loaded
    eagerly. *)
Definition get_by_pk (pk : Z) (user_id : option Z) (detail : bool) (db : DB)
    : GetExc + UserFeed :=
  let q := tbl_user_feed db in
  let q :=
    match user_id with
    | Some u => filter (λ r, uf_user_id r = u) q
    | None => q
    end in
  match filter (λ r, uf_id r = Some pk) q with
  | [] => inl DoesNotExist
  | [user_feed] => inr user_feed
  | _ :: _ :: _ => inl MultipleObjectsReturned
  end.

(** UserFeed.delete_by_pk: the row found is deleted by its primary key.  No
    model of this file refers to a UserFeed, so nothing cascades. *)
Definition delete_by_pk (pk : Z) (user_id : option Z) (db : DB)
    : (GetExc + unit) * DB :=
  match get_by_pk pk user_id false db with
  | inr user_feed =>
      (inr (),
       set_user_feeds db
         (filter (λ r, uf_id r ≠ uf_id user_feed) (tbl_user_feed db))
         (user_feed_seq db))
  | inl e => (inl e, db)
  end.

(** ** Serialisation: Feed.to_dict and UserFeed.to_dict *)

(** The values of the dicts. *)
#[warnings="-register-all"]
Inductive PyVal : Type :=
  | PNone
  | PInt (n : Z)
  | PStr (s : string)
  | PTime (t : Z)
  | PDict (items : list (string * PyVal)).

(** The constants of class FeedStatus. *)
Definition status_value (s : FeedStatus) : string :=
  match s with
  | PENDING => "pending"
  | UPDATING => "updating"
  | READY => "ready"
  | ERROR => "error"
  end.

(** The columns of Feed that only to_dict reads (they are written by the
    crawler); content_hash_base64 comes from ContentHashMixin. *)
Record FeedColumns : Type := mkFeedColumns {
  fc_link : option string;
  fc_author : option string;
  fc_icon : option string;
  fc_description : option string;
  fc_version : option string;
  fc_dt_created : Z;
  fc_dt_checked : option Z;
  fc_dt_synced : option Z;
  fc_encoding : option string;
  fc_etag : option string;
  fc_last_modified : option string;
  fc_content_length : option Z;
  fc_content_hash_base64 : option string;
}.

Definition py_str (s : option string) : PyVal := from_option PStr PNone s.
Definition py_int (n : option Z) : PyVal := from_option PInt PNone n.
Definition py_time (t : option Z) : PyVal := from_option PTime PNone t.

(** dict.update(key=value, ...): the entries are written in turn. *)
Definition dict_update (items : list (string * PyVal))
    (ret : gmap string PyVal) : gmap string PyVal :=
  foldl (λ d kv, <[kv.1 := kv.2]> d) ret items.

(** Feed.to_dict *)
Definition Feed_to_dict (self : Feed) (cols : FeedColumns) (detail : bool)
    : gmap string PyVal :=
  let ret :=
    dict_update
      [("status", PStr (status_value (feed_status self)));
       ("url", PStr (feed_url self));
       ("title", py_str (feed_title self));
       ("link", py_str (fc_link cols));
       ("author", py_str (fc_author cols));
       ("icon", py_str (fc_icon cols));
       ("description", py_str (fc_description cols));
       ("version", py_str (fc_version cols));
       ("dt_updated", PTime (feed_dt_updated self));
       ("dt_created", PTime (fc_dt_created cols))] ∅ in
  if detail then
    dict_update
      [("total_storys", py_int (feed_total_storys self));
       ("encoding", py_str (fc_encoding cols));
       ("etag", py_str (fc_etag cols));
       ("last_modified", py_str (fc_last_modified cols));
       ("content_length", py_int (fc_content_length cols));
       ("content_hash_base64", py_str (fc_content_hash_base64 cols));
       ("dt_checked", py_time (fc_dt_checked cols));
       ("dt_synced", py_time (fc_dt_synced cols))] ret
  else ret.

(** Truth value of an int-or-None: [None] and [0] are false. *)
Definition int_truthy (n : option Z) : bool :=
  match n with
  | Some k => bool_decide (k ≠ 0)
  | None => false
  end.

(** [self.feed.total_storys - self.story_offset]: the subtraction raises
    TypeError when either side is [None]. *)
Definition py_sub (a b : option Z) : option Z :=
  match a, b with
  | Some x, Some y => Some (x - y)
  | _, _ => None
  end.

(** UserFeed.to_dict.  [feed] is what [self.feed] evaluates to, the related
    Feed object.  The result is [None] when the call raises: the foreign key
    is set and no such object exists (the access [self.feed] raises), or
    [detail] is set and total_storys or story_offset is [None] (the
    subtraction raises TypeError). *)
Definition UserFeed_to_dict (self : UserFeed)
    (feed : option (Feed * FeedColumns)) (detail : bool)
    : option (gmap string PyVal) :=
  let ret :=
    if int_truthy (uf_feed_id self) then
      match feed with
      | Some (f, cols) =>
          let ret := Feed_to_dict f cols detail in
          if detail then
            match py_sub (feed_total_storys f) (uf_story_offset self) with
            | Some num_unread_storys =>
                Some (dict_update
                        [("num_unread_storys", PInt num_unread_storys)] ret)
            | None => None
            end
          else Some ret
      | None => None
      end
    else
      Some (dict_update
              [("url", PStr (uf_url self));
               ("dt_updated", py_time (uf_dt_updated self))] ∅) in
  match ret with
  | Some ret =>
      let ret :=
        dict_update
          [("id", py_int (uf_id self));
           ("user", PDict [("id", PInt (uf_user_id self))]);
           ("dt_created", py_time (uf_dt_created self))] ret in
      let ret := dict_update [("story_offset", py_int (uf_story_offset self))]
                   ret in
      let ret :=
        if str_truthy (uf_title self)
        then dict_update [("title", py_str (uf_title self))] ret else ret in
      let ret :=
        if bool_decide (uf_status self ≠ READY)
        then dict_update [("status", PStr (status_value (uf_status self)))] ret
        else ret in
      Some ret
  | None => None
  end.

(** UserFeed.is_ready *)
Definition is_ready (self : UserFeed) : bool :=
  bool_decide (uf_status self = READY).

(** ** Vocabulary of the statements *)

(** Primary keys of stored subscriptions: present and pairwise distinct. *)
Definition pk_wf (rows : list UserFeed) : Prop :=
  Forall (λ r, is_Some (uf_id r)) rows ∧ NoDup (uf_id <$> rows).

(** The sequence is ahead of every stored primary key. *)
Definition seq_wf (db : DB) : Prop :=
  Forall (λ r, ∀ pk, uf_id r = Some pk → pk < user_feed_seq db)
    (tbl_user_feed db).

(** Feed.url is unique. *)
Definition feed_url_wf (db : DB) : Prop := NoDup (feed_url <$> tbl_feed db).

(** unique_together as an invariant of the stored rows: two rows bound to
    the same feed for the same user are one row. *)
Definition pair_wf (rows : list UserFeed) : Prop :=
  ∀ r1 r2, r1 ∈ rows → r2 ∈ rows → uf_user_id r1 = uf_user_id r2 →
    is_Some (uf_feed_id r1) → uf_feed_id r1 = uf_feed_id r2 → r1 = r2.

(** A subscription passes the pending-visibility filter of a user's query. *)
Definition visible (user_id : Z) (show_pending : bool) (r : UserFeed) : Prop :=
  uf_user_id r = user_id ∧ (show_pending = false → uf_status r ≠ PENDING).
Global Instance visible_dec user_id show_pending r :
  Decision (visible user_id show_pending r).
Proof. unfold visible. apply _. Defined.

(** A subscription is changed against the hints: its id is absent from
    them, or its dt_updated is greater than the hinted value. *)
Definition changed_since (hints : gmap Z Z) (r : UserFeed) : Prop :=
  match uf_id r ≫= (hints !!.) with
  | None => True
  | Some hinted => from_option (λ d, hinted < d) False (uf_dt_updated r)
  end.
Global Instance changed_since_dec hints r : Decision (changed_since hints r).
Proof.
  unfold changed_since. destruct (uf_id r ≫= _); [|apply _].
  destruct (uf_dt_updated r); simpl; apply _.
Defined.

(** The hinted dt_updated of a subscription id, read from the list of hints:
    that of the last hint which names the id. *)
Definition hint_for (hints : list Hint) (i : Z) : option Z :=
  hint_dt_updated <$> last (filter (λ h, hint_id h = i) hints).

(** A subscription is changed against a list of hints: no hint names its
    id, or its dt_updated is greater than the hinted value. *)
Definition changed_against (hints : list Hint) (r : UserFeed) : Prop :=
  match uf_id r ≫= hint_for hints with
  | None => True
  | Some hinted => from_option (λ d, hinted < d) False (uf_dt_updated r)
  end.
Global Instance changed_against_dec hints r :
  Decision (changed_against hints r).
Proof.
  unfold changed_against. destruct (uf_id r ≫= _); [|apply _].
  destruct (uf_dt_updated r); simpl; apply _.
Defined.

(** A subscription that a hint of the list names and whose dt_updated is
    missing. *)
Definition named_null (hints : list Hint) (r : UserFeed) : Prop :=
  uf_dt_updated r = None ∧ is_Some (uf_id r ≫= hint_for hints).
Global Instance named_null_dec hints r : Decision (named_null hints r).
Proof. unfold named_null. apply _. Defined.

(** A mapping of source [s] with the greatest creation time of the
    source. *)
Definition newest (rows : list FeedUrlMap) (s : string) (r : FeedUrlMap)
    : Prop :=
  r ∈ rows ∧ fum_source r = s
  ∧ ∀ x, x ∈ rows → fum_source x = s → fum_dt_created x ≤ fum_dt_created r.

(** [o] is the newest mapping of [s] and, of the mappings that share its
    creation time, the one stored last; [None] when [s] has no mapping. *)
Definition newest_stored_last (rows : list FeedUrlMap) (s : string)
    (o : option FeedUrlMap) : Prop :=
  match o with
  | Some r =>
      newest rows s r
      ∧ ∃ l1 l2, rows = l1 ++ r :: l2
                 ∧ ∀ x, x ∈ l2 → fum_source x = s →
                        fum_dt_created x < fum_dt_created r
  | None => ∀ x, x ∈ rows → fum_source x ≠ s
  end.

(** The same with the one stored first. *)
Definition newest_stored_first (rows : list FeedUrlMap) (s : string)
    (o : option FeedUrlMap) : Prop :=
  match o with
  | Some r =>
      newest rows s r
      ∧ ∃ l1 l2, rows = l1 ++ r :: l2
                 ∧ ∀ x, x ∈ l1 → fum_source x = s →
                        fum_dt_created x < fum_dt_created r
  | None => ∀ x, x ∈ rows → fum_source x ≠ s
  end.

(** [url] resolves to the stored feed [f]: the latest mapping of [url] has a
    non-empty target and [f] is the feed with that url. *)
Definition resolves (db : DB) (url : string) (f : Feed) : Prop :=
  ∃ r, latest (tbl_feed_url_map db) url = Some r
       ∧ fum_target r ≠ EmptyString
       ∧ f ∈ tbl_feed db ∧ feed_url f = fum_target r.

(** The feed that create_by_url finds for [url], if any. *)
Definition resolved_feed (db : DB) (url : string) : option Feed :=
  let target_url := fum_target <$> latest (tbl_feed_url_map db) url in
  if str_truthy target_url then
    first (order_by feed_id
             (filter (λ f, Some (feed_url f) = target_url) (tbl_feed db)))
  else None.

(** The subscription [r] binds the pair (user, feed). *)
Definition binds (user_id : Z) (f : Feed) (r : UserFeed) : Prop :=
  uf_user_id r = user_id ∧ uf_feed_id r = Some (feed_id f).
Global Instance binds_dec user_id f r : Decision (binds user_id f r).
Proof. unfold binds. apply _. Defined.

(** What create_by_url and create_by_url_s decide for a url: the feed bound
    (or none), the status and the url kept. *)
Definition outcome (r : UserFeed) : option Z * FeedStatus * string :=
  (uf_feed_id r, uf_status r, uf_url r).

(** The comparison of query_by_user's final sort on rows whose keys all
    hold values: descending (dt_updated, id). *)
Definition changed_lt (y x : UserFeed) : bool :=
  match uf_dt_updated x, uf_dt_updated y, uf_id x, uf_id y with
  | Some dx, Some dy, Some ix, Some iy =>
      bool_decide (dx < dy ∨ (dx = dy ∧ ix < iy))
  | _, _, _, _ => false
  end.

(** The subscription that create_by_url builds for a user without a
    subscription to the resolved feed. *)
Definition candidate (db : DB) (user_id : Z) (url : string) : UserFeed :=
  match resolved_feed db url with
  | Some f => new_user_feed user_id (Some f) url READY
  | None => new_user_feed user_id None url PENDING
  end.

(** Descending (dt_updated, id) on stored values, a missing value ordering
    below every value: the order of query_by_user's final sort wherever its
    comparisons do not raise. *)
Definition key_desc_lt (y x : UserFeed) : bool :=
  pk_lt (uf_dt_updated x) (uf_dt_updated y)
  || (bool_decide (uf_dt_updated x = uf_dt_updated y)
      && pk_lt (uf_id x) (uf_id y)).

(** A subscription that the hints name and whose dt_updated is missing. *)
Definition hinted_null (hints : gmap Z Z) (r : UserFeed) : Prop :=
  uf_dt_updated r = None ∧ is_Some (uf_id r ≫= (hints !!.)).
Global Instance hinted_null_dec hints r : Decision (hinted_null hints r).
Proof. unfold hinted_null. apply _. Defined.

(** Subscriptions of which some have a dt_updated and some have none. *)
Definition mixed_dt (l : list UserFeed) : Prop :=
  Exists (λ x, uf_dt_updated x = None) l
  ∧ Exists (λ x, is_Some (uf_dt_updated x)) l.
Global Instance mixed_dt_dec l : Decision (mixed_dt l).
Proof. unfold mixed_dt. apply _. Defined.

(** The comparison of the final sort. *)
Definition changed_ltr (y x : UserFeed) : Res bool :=
  py_tuple_lt (changed_key x) (changed_key y).

(** What create_by_url hands back for a url: the new subscription, or
    nothing when it raises. *)
Definition single (db : DB) (user_id : Z) (url : string) : option UserFeed :=
  match fst (create_by_url url user_id db) with
  | Ok user_feed => Some user_feed
  | Raise _ => None
  end.

(** A stored subscription of the user bound to the feed that one of the
    urls resolves to. *)
Definition subscribed_via (db : DB) (user_id : Z) (urls : list string)
    (r : UserFeed) : Prop :=
  uf_user_id r = user_id
  ∧ Exists (λ url, is_Some (resolved_feed db url)
                   ∧ uf_feed_id r = feed_id <$> resolved_feed db url) urls.
Global Instance subscribed_via_dec db user_id urls r :
  Decision (subscribed_via db user_id urls r).
Proof. unfold subscribed_via. apply _. Defined.

(** ** Sample data

    The scenario of the specification: the source http://a.com/feed
    resolves to the canonical feed http://a.com/rss.xml. *)

Definition url_a_feed : string := "http://a.com/feed".
Definition url_a_rss : string := "http://a.com/rss.xml".
Definition url_a_atom : string := "http://a.com/atom.xml".

Definition feed_a : Feed := mkFeed 1 url_a_rss READY None 0 (Some 0).

Definition map_a_rss : FeedUrlMap := mkFeedUrlMap 1 url_a_feed url_a_rss 10.
(** A second mapping of the same source with the same creation time. *)
Definition map_a_atom : FeedUrlMap := mkFeedUrlMap 2 url_a_feed url_a_atom 10.
(** A later mapping of the same source. *)
Definition map_a_later : FeedUrlMap := mkFeedUrlMap 3 url_a_feed url_a_atom 20.

Definition db_a : DB := mkDB [feed_a] [] [map_a_rss] 1.
Definition db_tie_12 : DB := mkDB [] [] [map_a_rss; map_a_atom] 1.
Definition db_remap_12 : DB := mkDB [] [] [map_a_rss; map_a_later] 1.
Definition db_remap_21 : DB := mkDB [] [] [map_a_later; map_a_rss] 1.

(** A codec that satisfies the gzip laws: the payload stored behind the two
    magic bytes of a gzip member. *)
Definition stored_gzip : Gzip :=
  {| gzip_compress := λ b, x1f :: x8b :: b;
     gzip_decompress := λ c,
       match c with
       | x1f :: x8b :: b => Ok b
       | _ => Raise BadGzipFile
       end |}.

Definition raw_a : RawFeed := mkRawFeed 1 url_a_rss (Some 200) false None.
Definition payload_1024 : list byte := replicate 1024 x61.

(** Subscriptions of user 7: two ready ones with a recorded dt_updated and
    a pending one. *)
Definition sub_1 : UserFeed :=
  mkUserFeed (Some 1) 7 (Some 1) READY url_a_feed None (Some 0) (Some 0)
    (Some 5).
Definition sub_2 : UserFeed :=
  mkUserFeed (Some 2) 7 None READY url_a_atom None (Some 0) (Some 0)
    (Some 9).
Definition sub_3 : UserFeed :=
  mkUserFeed (Some 3) 7 None PENDING url_a_rss None (Some 0) (Some 0)
    (Some 2).

Definition db_subs : DB := mkDB [feed_a] [sub_1; sub_2; sub_3] [map_a_rss] 4.

(** A url that no mapping knows. *)
Definition url_b_feed : string := "http://b.com/feed".

(** A store that holds a feed with the empty url and a mapping onto it. *)
Definition feed_blank : Feed :=
  mkFeed 2 EmptyString READY None 0 (Some 0).
Definition map_b_blank : FeedUrlMap :=
  mkFeedUrlMap 4 url_b_feed EmptyString 10.
Definition db_blank : DB := mkDB [feed_blank] [] [map_b_blank] 1.

(** Subscriptions of user 7, one of them stored without a dt_updated, as
    create_by_url leaves it. *)
Definition sub_4 : UserFeed :=
  mkUserFeed (Some 4) 7 None READY url_b_feed None (Some 0) (Some 0) None.
Definition db_null : DB := mkDB [feed_a] [sub_1; sub_4] [map_a_rss] 5.

(** The remaining columns of the feed of the scenario. *)
Definition cols_a : FeedColumns :=
  mkFeedColumns (Some "http://a.com/") None None None (Some "rss20") 0
    (Some 8) (Some 8) (Some "utf-8") None None (Some 2048) None.

(** * Properties *)

(** ** The stable sort *)

Section sorted_facts.
Context {A : Type} (lt : A → A → bool).

Lemma insert_sorted_perm x l : insert_sorted lt x l ≡ₚ x :: l.
Proof.
  induction l as [|y l IH]; simpl; [done|].
  destruct (lt y x); [|done].
  rewrite IH. apply Permutation_swap.
Qed.

Lemma sorted_perm l : sorted lt l ≡ₚ l.
Proof.
  induction l as [|x l IH]; simpl; [done|].
  rewrite insert_sorted_perm. by rewrite IH.
Qed.

Lemma elem_of_sorted x l : x ∈ sorted lt l ↔ x ∈ l.
Proof. by rewrite sorted_perm. Qed.

Hypothesis lt_asym : ∀ a b, lt a b = true → lt b a = false.
Hypothesis lt_negtrans :
  ∀ a b c, lt a b = false → lt b c = false → lt a c = false.

Lemma insert_sorted_strongly x l :
  StronglySorted (keeps lt) l → StronglySorted (keeps lt) (insert_sorted lt x l).
Proof.
  induction 1 as [|y l Hl IH Hy]; simpl.
  { repeat constructor. }
  destruct (lt y x) eqn:E.
  - constructor; [done|].
    rewrite insert_sorted_perm. constructor; [|done].
    by apply lt_asym.
  - constructor; [by constructor|].
    constructor; [done|].
    eapply Forall_impl; [exact Hy|]. intros z Hz. unfold keeps in *.
    by eapply lt_negtrans.
Qed.

Lemma sorted_strongly l : StronglySorted (keeps lt) (sorted lt l).
Proof.
  induction l; simpl; [constructor|by apply insert_sorted_strongly].
Qed.

(** Filtering commutes with the stable sort. *)
Lemma filter_insert_sorted (P : A → Prop) `{∀ a, Decision (P a)} x l :
  StronglySorted (keeps lt) l →
  filter P (insert_sorted lt x l) =
    if decide (P x) then insert_sorted lt x (filter P l) else filter P l.
Proof.
  induction 1 as [|y l Hl IH Hy]; simpl.
  { rewrite filter_cons, filter_nil. by destruct (decide (P x)). }
  destruct (lt y x) eqn:E.
  - rewrite !filter_cons, IH.
    destruct (decide (P x)), (decide (P y)); simpl; by rewrite ?E.
  - rewrite filter_cons. destruct (decide (P x)); [|done].
    rewrite (filter_cons _ y).
    destruct (decide (P y)); simpl; [by rewrite E|].
    assert (Forall (λ z, lt z x = false) (filter P l)) as Hall.
    { apply Forall_forall. intros z [_ Hz]%list_elem_of_filter.
      rewrite Forall_forall in Hy. eapply lt_negtrans; [|exact E].
      by apply Hy. }
    destruct Hall as [|z l' Hz _]; simpl; [done|by rewrite Hz].
Qed.

Lemma filter_sorted (P : A → Prop) `{∀ a, Decision (P a)} l :
  filter P (sorted lt l) = sorted lt (filter P l).
Proof.
  induction l as [|x l IH]; simpl; [done|].
  rewrite filter_insert_sorted by apply sorted_strongly.
  rewrite filter_cons. destruct (decide (P x)); simpl; by rewrite IH.
Qed.
End sorted_facts.

(** Two comparisons that agree on the elements of a list sort it alike. *)
Lemma insert_sorted_ext {A} (lt1 lt2 : A → A → bool) x l :
  Forall (λ y, lt1 y x = lt2 y x) l →
  insert_sorted lt1 x l = insert_sorted lt2 x l.
Proof.
  induction 1 as [|y l Hy _ IH]; simpl; [done|].
  rewrite Hy, IH. done.
Qed.

Lemma sorted_ext {A} (lt1 lt2 : A → A → bool) l :
  (∀ x y, x ∈ l → y ∈ l → lt1 y x = lt2 y x) →
  sorted lt1 l = sorted lt2 l.
Proof.
  induction l as [|x l IH]; intros Hext; simpl; [done|].
  rewrite IH by (intros; apply Hext; by constructor).
  apply insert_sorted_ext, Forall_forall. intros y Hy.
  apply Hext; [by left|]. right. by apply (elem_of_sorted lt2).
Qed.

(** ** Orderings used by the queries *)

Lemma string_ltb_leb a b : String.ltb a b = negb (String.leb b a).
Proof.
  unfold String.ltb, String.leb. rewrite (String.compare_antisym a b).
  by destruct (String.compare b a).
Qed.

Lemma string_ltb_false a b : String.ltb a b = false ↔ (b ≤ a)%string.
Proof.
  rewrite string_ltb_leb, negb_false_iff. unfold String.le.
  by rewrite Is_true_true.
Qed.

Lemma source_recency_lt_false y x :
  source_recency_lt y x = false ↔
    (fum_source x ≤ fum_source y)%string
    ∧ (fum_source y = fum_source x → fum_dt_created y ≤ fum_dt_created x).
Proof.
  unfold source_recency_lt.
  rewrite orb_false_iff, andb_false_iff, string_ltb_false.
  rewrite !bool_decide_eq_false. split.
  - intros [? [?|?]]; split; [done|done|done|lia].
  - intros [? Hdt]. split; [done|].
    destruct (decide (fum_source y = fum_source x)); [right|by left].
    specialize (Hdt ltac:(done)). lia.
Qed.

Lemma source_recency_lt_asym a b :
  source_recency_lt a b = true → source_recency_lt b a = false.
Proof.
  intros Hab. apply source_recency_lt_false.
  destruct (source_recency_lt b a) eqn:Hba; [|by apply source_recency_lt_false].
  unfold source_recency_lt in *.
  apply orb_true_iff in Hab as [Hab|[Hs Hd]%andb_true_iff];
    apply orb_true_iff in Hba as [Hba|[Hs' Hd']%andb_true_iff].
  - rewrite string_ltb_leb, negb_true_iff in Hab, Hba.
    destruct (String.leb_total (fum_source a) (fum_source b)); congruence.
  - apply bool_decide_eq_true in Hs'. rewrite Hs' in Hab.
    rewrite string_ltb_leb, negb_true_iff in Hab.
    destruct (String.leb_total (fum_source a) (fum_source a)); congruence.
  - apply bool_decide_eq_true in Hs. rewrite Hs in Hba.
    rewrite string_ltb_leb, negb_true_iff in Hba.
    destruct (String.leb_total (fum_source b) (fum_source b)); congruence.
  - apply bool_decide_eq_true in Hd, Hd'. lia.
Qed.

Lemma source_recency_lt_negtrans a b c :
  source_recency_lt a b = false → source_recency_lt b c = false →
  source_recency_lt a c = false.
Proof.
  rewrite !source_recency_lt_false. intros [Hba Hab] [Hcb Hbc]. split.
  - by etrans.
  - intros Hac. rewrite <-Hac in Hcb.
    assert (fum_source a = fum_source b) as Heq by by apply (anti_symm String.le).
    specialize (Hab Heq). specialize (Hbc ltac:(congruence)). lia.
Qed.

(** Where the stable sort puts a greatest key: ascending, the last element
    is the last of the input's greatest; descending, the first element is
    the first of the input's greatest. *)
Lemma last_insert_sorted {A} (lt : A → A → bool) x l :
  last (insert_sorted lt x l) = if forallb (λ y, lt y x) l then Some x else last l.
Proof.
  induction l as [|y l IH]; [done|].
  cbn [insert_sorted forallb]. destruct (lt y x); cbn [andb].
  - rewrite last_cons, IH. destruct (forallb _ l); [done|].
    by rewrite last_cons.
  - rewrite last_cons. destruct (last (y :: l)) eqn:E; [done|].
    rewrite last_cons in E. by destruct (last l).
Qed.

Lemma order_by_last {A} (key : A → Z) (q : list A) :
  match last (order_by key q) with
  | Some r => ∃ l1 l2, q = l1 ++ r :: l2
                       ∧ Forall (λ y, key y ≤ key r) l1
                       ∧ Forall (λ y, key y < key r) l2
  | None => q = []
  end.
Proof.
  unfold order_by. induction q as [|x q IH]; [done|].
  cbn [sorted foldr]. fold (sorted (λ y x, bool_decide (key y < key x)) q).
  rewrite last_insert_sorted.
  destruct (forallb _ _) eqn:Hall.
  - exists [], q. split; [done|]. split; [constructor|].
    apply Forall_forall. intros y Hy.
    apply (elem_of_sorted (λ y x, bool_decide (key y < key x))) in Hy.
    apply Is_true_true_2, forallb_True in Hall.
    rewrite Forall_forall in Hall. specialize (Hall y Hy).
    by apply bool_decide_unpack in Hall.
  - destruct (last _) as [r|].
    + destruct IH as (l1 & l2 & -> & H1 & H2).
      exists (x :: l1), l2. split; [done|]. split; [|done].
      constructor; [|done].
      destruct (decide (key x ≤ key r)) as [|Hlt]; [done|]. exfalso.
      assert (forallb (λ y, bool_decide (key y < key x))
                (sorted (λ y x, bool_decide (key y < key x)) (l1 ++ r :: l2))
              = true); [|congruence].
      apply Is_true_true, forallb_True, Forall_forall. intros y Hy.
      apply elem_of_sorted in Hy. apply bool_decide_pack.
      rewrite Forall_forall in H1, H2.
      apply elem_of_app in Hy as [Hy|[->|Hy]%elem_of_cons].
      * specialize (H1 y Hy). lia.
      * lia.
      * specialize (H2 y Hy). lia.
    + subst q. done.
Qed.

Lemma sorted_desc_first {A} (key : A → Z) (q : list A) :
  match first (sorted (λ y x, bool_decide (key x < key y)) q) with
  | Some r => ∃ l1 l2, q = l1 ++ r :: l2
                       ∧ Forall (λ y, key y < key r) l1
                       ∧ Forall (λ y, key y ≤ key r) l2
  | None => q = []
  end.
Proof.
  unfold first. induction q as [|x q IH]; [done|].
  cbn [sorted foldr]. fold (sorted (λ y x, bool_decide (key x < key y)) q).
  destruct (sorted _ q) as [|y l] eqn:E; cbn [insert_sorted head] in *.
  - subst q. exists [], []. by repeat constructor.
  - destruct IH as (l1 & l2 & -> & H1 & H2). case_bool_decide; cbn [head].
    + exists (x :: l1), l2. split; [done|]. by repeat constructor.
    + exists [], (l1 ++ y :: l2). split; [done|]. split; [constructor|].
      apply Forall_app. split; [|constructor].
      * eapply Forall_impl; [exact H1|]. intros z Hz. simpl in Hz. lia.
      * lia.
      * eapply Forall_impl; [exact H2|]. intros z Hz. simpl in Hz. lia.
Qed.

(** An element of a filtered list splits the list it was filtered from. *)
Lemma filter_split {A} (P : A → Prop) `{∀ a, Decision (P a)} (l l1 l2 : list A)
    x :
  filter P l = l1 ++ x :: l2 →
  ∃ m1 m2, l = m1 ++ x :: m2 ∧ filter P m1 = l1 ∧ filter P m2 = l2.
Proof.
  revert l1. induction l as [|a l IH]; intros l1 Hf.
  { by destruct l1. }
  rewrite filter_cons in Hf. destruct (decide (P a)) as [Ha|Ha].
  - destruct l1 as [|b l1]; injection Hf as <- Hf.
    + exists [], l. by rewrite Hf.
    + destruct (IH l1 Hf) as (m1 & m2 & -> & <- & <-).
      exists (a :: m1), m2. by rewrite filter_cons_True.
  - destruct (IH l1 Hf) as (m1 & m2 & -> & <- & <-).
    exists (a :: m1), m2. by rewrite filter_cons_False.
Qed.

(** ** UrlResolver *)

Lemma filter_none {A} (P : A → Prop) `{∀ a, Decision (P a)} (l : list A) :
  Forall (λ x, ¬ P x) l → filter P l = [].
Proof.
  induction 1 as [|x l Hx _ IH]; [done|]. by rewrite filter_cons_False.
Qed.

(** Building the dict: the last item of a source decides its entry. *)
Lemma url_map_lookup (items : list FeedUrlMap) (m : gmap string string) s :
  foldl (λ url_map item, <[fum_source item := fum_target item]> url_map)
    m items !! s =
  match last (filter (by_source s) items) with
  | Some r => Some (fum_target r)
  | None => m !! s
  end.
Proof.
  revert m. induction items as [|r items IH]; intros m; simpl; [done|].
  rewrite IH, filter_cons. destruct (decide (by_source s r)) as [Hs|Hs].
  - rewrite last_cons. destruct (last _); [done|].
    unfold by_source in Hs. subst s. by rewrite lookup_insert_eq.
  - destruct (last _); [done|]. by rewrite lookup_insert_ne.
Qed.

(** On rows grouped by ascending source, DISTINCT ON keeps exactly the first
    row of every source that is not the one seen just before. *)
Lemma distinct_on_source_filter (prev : option string) (q : list FeedUrlMap) s :
  StronglySorted (λ y x, (fum_source y ≤ fum_source x)%string) q →
  (∀ p, prev = Some p → Forall (λ x, (p ≤ fum_source x)%string) q) →
  filter (by_source s) (distinct_on_source prev q) =
    if decide (prev = Some s) then []
    else option_list (head (filter (by_source s) q)).
Proof.
  intros Hq. revert prev.
  induction Hq as [|r q Hq IH Hr]; intros prev Hprev; simpl.
  { by destruct (decide _). }
  case_bool_decide as Hp.
  - rewrite IH.
    + destruct (decide (prev = Some s)) as [|Hne]; [done|].
      rewrite (filter_cons _ r). destruct (decide (by_source s r)) as [Hs|]; [|done].
      unfold by_source in Hs. congruence.
    + intros p Hpp. specialize (Hprev p Hpp). by inversion Hprev.
  - rewrite !(filter_cons _ r), IH by (by intros p [= <-]).
    destruct (decide (by_source s r)) as [Hs|Hs]; unfold by_source in Hs.
    + subst s. rewrite decide_True by done.
      rewrite decide_False by done. done.
    + rewrite decide_False by congruence.
      destruct (decide (prev = Some s)) as [->|]; [|done].
      specialize (Hprev s eq_refl). inversion_clear Hprev as [|?? Hsr _].
      assert (filter (by_source s) q = []) as ->; [|done].
      apply filter_none, Forall_forall. intros x Hx Hxs.
      unfold by_source in Hxs. rewrite Forall_forall in Hr.
      specialize (Hr x Hx). rewrite Hxs in Hr.
      apply Hs. by apply (anti_symm String.le).
Qed.

Lemma sorted_by_source (q : list FeedUrlMap) :
  StronglySorted (λ y x, (fum_source y ≤ fum_source x)%string)
    (sorted source_recency_lt q).
Proof.
  pose proof (sorted_strongly source_recency_lt
    source_recency_lt_asym source_recency_lt_negtrans q) as Hs.
  induction Hs as [|y l _ IH Hy]; constructor; [done|].
  eapply Forall_impl; [exact Hy|]. intros x Hx.
  by apply source_recency_lt_false in Hx as [? _].
Qed.

Lemma find_target_eq source db :
  find_target source db = (Ok (fum_target <$> latest (tbl_feed_url_map db) source), db).
Proof.
  unfold find_target, bind, objects, latest, ret. simpl.
  by destruct (first _).
Qed.

Lemma find_all_target_eq source_list db :
  ∃ url_map, find_all_target source_list db = (Ok url_map, db)
    ∧ ∀ s, url_map !! s =
        if decide (s ∈ source_list)
        then fum_target <$> distinct_latest (tbl_feed_url_map db) s else None.
Proof.
  unfold find_all_target, bind, objects, ret. simpl.
  eexists. split; [done|]. intros s.
  rewrite url_map_lookup, lookup_empty.
  rewrite distinct_on_source_filter by (by apply sorted_by_source || done).
  rewrite decide_False by done.
  rewrite (filter_sorted _ source_recency_lt_asym source_recency_lt_negtrans).
  rewrite list_filter_filter.
  destruct (decide (s ∈ source_list)) as [Hin|Hin].
  - unfold distinct_latest, first.
    rewrite (list_filter_iff _ (by_source s)); last first.
    { unfold by_source. intros x. split; [by intros [? _]|by intros ->]. }
    rewrite (sorted_ext source_recency_lt
               (λ y x, bool_decide (fum_dt_created x < fum_dt_created y))).
    + by destruct (sorted _ _).
    + intros x y [Hx _]%list_elem_of_filter [Hy _]%list_elem_of_filter.
      unfold by_source in *. unfold source_recency_lt.
      rewrite Hx, Hy, (bool_decide_eq_true_2 (s = s)) by done.
      rewrite (proj2 (string_ltb_false s s)) by done. done.
  - rewrite filter_none; [done|].
    apply Forall_forall. intros x _ [Hs Hx]. unfold by_source in Hs. by subst.
Qed.

(** A split of the rows of one source is a split of all rows. *)
Lemma newest_of_split (rows : list FeedUrlMap) (s : string) l1 r l2 :
  filter (by_source s) rows = l1 ++ r :: l2 →
  Forall (λ y, fum_dt_created y ≤ fum_dt_created r) l1 →
  Forall (λ y, fum_dt_created y ≤ fum_dt_created r) l2 →
  newest rows s r
  ∧ ∃ m1 m2, rows = m1 ++ r :: m2
             ∧ filter (by_source s) m1 = l1 ∧ filter (by_source s) m2 = l2.
Proof.
  intros Hf H1 H2. rewrite Forall_forall in H1, H2.
  assert (r ∈ filter (by_source s) rows) as [Hs Hr]%list_elem_of_filter.
  { rewrite Hf. apply elem_of_app. right. by left. }
  split; [|by apply filter_split].
  split; [done|]. split; [done|]. intros x Hx Hxs.
  assert (x ∈ filter (by_source s) rows) as Hin by by apply list_elem_of_filter.
  rewrite Hf in Hin.
  apply elem_of_app in Hin as [Hin|[->|Hin]%elem_of_cons];
    [by apply H1|lia|by apply H2].
Qed.

(** find_target's row: the newest of the source, of equals the one stored
    last. *)
Lemma latest_stored_last (rows : list FeedUrlMap) (s : string) :
  newest_stored_last rows s (latest rows s).
Proof.
  unfold latest, first, order_by_desc. rewrite head_reverse.
  pose proof (order_by_last fum_dt_created (filter (by_source s) rows)) as H.
  destruct (last _) as [r|]; simpl.
  - destruct H as (l1 & l2 & Hf & H1 & H2).
    destruct (newest_of_split rows s l1 r l2) as (Hn & m1 & m2 & -> & <- & <-);
      [done|done| |].
    { eapply Forall_impl; [exact H2|]. intros y Hy. simpl in Hy. lia. }
    split; [done|]. exists m1, m2. split; [done|]. intros x Hx Hxs.
    rewrite Forall_forall in H2. apply H2. by apply list_elem_of_filter.
  - intros r Hr Hs. by eapply (filter_nil_not_elem_of (by_source s)) in H.
Qed.

(** find_all_target's row: the newest of the source, of equals the one
    stored first. *)
Lemma distinct_latest_stored_first (rows : list FeedUrlMap) (s : string) :
  newest_stored_first rows s (distinct_latest rows s).
Proof.
  unfold distinct_latest.
  pose proof (sorted_desc_first fum_dt_created (filter (by_source s) rows)) as H.
  destruct (first _) as [r|]; simpl.
  - destruct H as (l1 & l2 & Hf & H1 & H2).
    destruct (newest_of_split rows s l1 r l2) as (Hn & m1 & m2 & -> & <- & <-);
      [done| |done|].
    { eapply Forall_impl; [exact H1|]. intros y Hy. simpl in Hy. lia. }
    split; [done|]. exists m1, m2. split; [done|]. intros x Hx Hxs.
    rewrite Forall_forall in H1. apply H1. by apply list_elem_of_filter.
  - intros r Hr Hs. by eapply (filter_nil_not_elem_of (by_source s)) in H.
Qed.

Lemma latest_spec (rows : list FeedUrlMap) (s : string) :
  match latest rows s with
  | Some r =>
      r ∈ rows ∧ fum_source r = s
      ∧ ∀ r', r' ∈ rows → fum_source r' = s →
              fum_dt_created r' ≤ fum_dt_created r
  | None => ∀ r, r ∈ rows → fum_source r ≠ s
  end.
Proof.
  pose proof (latest_stored_last rows s) as H.
  destruct (latest rows s) as [r|]; [|done]. by destruct H as [Hn _].
Qed.

Lemma distinct_latest_spec (rows : list FeedUrlMap) (s : string) :
  match distinct_latest rows s with
  | Some r =>
      r ∈ rows ∧ fum_source r = s
      ∧ ∀ r', r' ∈ rows → fum_source r' = s →
              fum_dt_created r' ≤ fum_dt_created r
  | None => ∀ r, r ∈ rows → fum_source r ≠ s
  end.
Proof.
  pose proof (distinct_latest_stored_first rows s) as H.
  destruct (distinct_latest rows s) as [r|]; [|done]. by destruct H as [Hn _].
Qed.


(** Without a tie the two queries keep the same row. *)
Lemma distinct_latest_single (rows : list FeedUrlMap) (s : string) :
  single_latest rows s → distinct_latest rows s = latest rows s.
Proof.
  intros Hone.
  pose proof (distinct_latest_spec rows s) as H1.
  pose proof (latest_spec rows s) as H2.
  destruct (distinct_latest rows s) as [r1|], (latest rows s) as [r2|];
    [|exfalso..|done].
  - destruct H1 as (Hr1 & Hs1 & Hm1), H2 as (Hr2 & Hs2 & Hm2).
    f_equal. by apply Hone.
  - destruct H1 as (Hr1 & Hs1 & _). by apply (H2 r1).
  - destruct H2 as (Hr2 & Hs2 & _). by apply (H1 r2).
Qed.

Lemma find_all_target_untied source_list db :
  (∀ s, s ∈ source_list → single_latest (tbl_feed_url_map db) s) →
  ∃ url_map, find_all_target source_list db = (Ok url_map, db)
    ∧ ∀ s, url_map !! s =
        if decide (s ∈ source_list)
        then fum_target <$> latest (tbl_feed_url_map db) s else None.
Proof.
  intros Hone.
  destruct (find_all_target_eq source_list db) as (url_map & Hrun & Hlook).
  exists url_map. split; [done|]. intros s. rewrite Hlook.
  destruct (decide (s ∈ source_list)); [|done].
  by rewrite distinct_latest_single by by apply Hone.
Qed.

(** In the store of the remapped source the later mapping alone holds the
    greatest dt_created. *)
Lemma remap_single_latest :
  single_latest (tbl_feed_url_map db_remap_12) url_a_feed.
Proof.
  intros r r' Hr Hr' _ _ Hm Hm'.
  assert (map_a_later ∈ tbl_feed_url_map db_remap_12) as Hl
    by (cbn; right; left).
  pose proof (Hm map_a_later Hl eq_refl) as H1.
  pose proof (Hm' map_a_later Hl eq_refl) as H2.
  cbn in Hr, Hr'. simpl in H1, H2.
  apply elem_of_cons in Hr as [->|Hr]; [simpl in H1; lia|].
  apply elem_of_cons in Hr' as [->|Hr']; [simpl in H2; lia|].
  apply list_elem_of_singleton in Hr, Hr'. congruence.
Qed.

(** C5, as the code behaves: a source has two mappings with the same
    dt_created; find_target returns the target of the one stored last and
    find_all_target, asked for that source, holds the target of the one
    stored first. *)
Lemma find_all_target_differs_on_tie :
  fst (find_target url_a_feed db_tie_12) = Ok (Some url_a_atom)
  ∧ ∃ m, fst (find_all_target [url_a_feed] db_tie_12) = Ok m
         ∧ m !! url_a_feed = Some url_a_rss.
Proof.
  split; [by vm_compute|]. eexists. split; [reflexivity|by vm_compute].
Qed.

(** C5, amended: find_target returns the target of a mapping of the source
    with the greatest dt_created, and None when the source has no mapping.
    For a source in the batch find_all_target, too, holds the target of a
    mapping with the greatest dt_created (no entry when the source has no
    mapping), and it is the very target that find_target returns whenever a
    single mapping holds the greatest dt_created of the source; for a source
    outside the batch it holds nothing. *)
Theorem find_target_most_recent (db : DB) (source : string) :
  (∃ target, find_target source db = (Ok target, db)
     ∧ match target with
       | Some t =>
           ∃ r, r ∈ tbl_feed_url_map db ∧ fum_source r = source
                ∧ fum_target r = t
                ∧ ∀ r', r' ∈ tbl_feed_url_map db → fum_source r' = source →
                        fum_dt_created r' ≤ fum_dt_created r
       | None => ∀ r, r ∈ tbl_feed_url_map db → fum_source r ≠ source
       end)
  ∧ ∀ source_list,
      ∃ url_map, find_all_target source_list db = (Ok url_map, db)
        ∧ (source ∈ source_list →
             match url_map !! source with
             | Some t =>
                 ∃ r, r ∈ tbl_feed_url_map db ∧ fum_source r = source
                      ∧ fum_target r = t
                      ∧ ∀ r', r' ∈ tbl_feed_url_map db →
                              fum_source r' = source →
                              fum_dt_created r' ≤ fum_dt_created r
             | None => ∀ r, r ∈ tbl_feed_url_map db → fum_source r ≠ source
             end)
        ∧ (source ∈ source_list →
           single_latest (tbl_feed_url_map db) source →
             find_target source db = (Ok (url_map !! source), db))
        ∧ (source ∉ source_list → url_map !! source = None).
Proof.
  split.
  - rewrite find_target_eq. eexists. split; [done|].
    pose proof (latest_spec (tbl_feed_url_map db) source) as H.
    destruct (latest _ _) as [r|]; simpl; [|done].
    destruct H as (? & ? & ?). by exists r.
  - intros source_list.
    destruct (find_all_target_eq source_list db) as (url_map & Hrun & Hlook).
    exists url_map. split; [done|]. rewrite find_target_eq, Hlook.
    split; [|split].
    + intros Hin. rewrite decide_True by done.
      pose proof (distinct_latest_spec (tbl_feed_url_map db) source) as H.
      destruct (distinct_latest _ _) as [r|]; simpl; [|done].
      destruct H as (? & ? & ?). by exists r.
    + intros Hin Hone. rewrite decide_True by done.
      by rewrite distinct_latest_single.
    + intros Hin. by rewrite decide_False.
Qed.

Lemma find_target_most_recent_witness :
  ∃ url_map,
    find_all_target [url_a_feed] db_remap_12 = (Ok url_map, db_remap_12)
    ∧ find_target url_a_feed db_remap_12
      = (Ok (url_map !! url_a_feed), db_remap_12)
    ∧ url_map !! url_a_feed = Some url_a_atom.
Proof.
  destruct (proj2 (find_target_most_recent db_remap_12 url_a_feed)
              [url_a_feed]) as (url_map & Hrun & _ & Hagree & _).
  exists url_map. split; [done|].
  assert (find_target url_a_feed db_remap_12
          = (Ok (url_map !! url_a_feed), db_remap_12)) as Heq.
  { apply Hagree; [by left|apply remap_single_latest]. }
  split; [done|]. by injection Heq as <-.
Defined.




(** The scenario without a tie: a later mapping replaces the earlier one,
    and both queries return its target in either storage order. *)
Example remap_either_order :
  single_latest (tbl_feed_url_map db_remap_12) url_a_feed
  ∧ fst (find_target url_a_feed db_remap_12) = Ok (Some url_a_atom)
  ∧ fst (find_target url_a_feed db_remap_21) = Ok (Some url_a_atom)
  ∧ (∃ m, fst (find_all_target [url_a_feed] db_remap_12) = Ok m
          ∧ m !! url_a_feed = Some url_a_atom)
  ∧ (∃ m, fst (find_all_target [url_a_feed] db_remap_21) = Ok m
          ∧ m !! url_a_feed = Some url_a_atom).
Proof.
  split; [apply remap_single_latest|].
  split; [by vm_compute|]. split; [by vm_compute|].
  split; eexists; (split; [reflexivity|by vm_compute]).
Qed.

(** ** ContentStore *)

(** C8: set_content marks the row gzipped exactly when the payload has at
    least 1024 bytes; it then stores the compressed payload, and otherwise
    the payload as it is. *)
Theorem set_content_threshold (G : Gzip) (self : RawFeed) (b : list byte) :
  raw_is_gzipped (set_content self (Some b))
    = bool_decide (1024 ≤ length b)%nat
  ∧ raw_content (set_content self (Some b))
    = Some (if bool_decide (1024 ≤ length b)%nat then gzip_compress b else b).
Proof.
  unfold set_content. destruct b as [|x b].
  - split; reflexivity.
  - change (bytes_truthy (Some (x :: b))) with true.
    change (bytes_len (Some (x :: b))) with (length (x :: b)).
    cbn [andb]. by case_bool_decide.
Qed.

(** C2: reading back with get_content (decompress left to the flag) what
    set_content stored returns the content that was stored, for every byte
    string of any length and for absent content. *)
Theorem content_round_trip (G : Gzip) (L : GzipLaws G) (self : RawFeed)
    (content : option (list byte)) :
  get_content (set_content self content) None = Ok content.
Proof.
  unfold set_content.
  destruct (bytes_truthy content && _) eqn:E; unfold get_content; simpl.
  - apply andb_true_iff in E as [Ht _].
    destruct content as [b|]; [|done]. simpl.
    pose proof (gzip_compress_nonempty b) as Hne.
    destruct (gzip_compress b) as [|c cs] eqn:Ec; [done|]. simpl.
    by rewrite <-Ec, gzip_decompress_compress.
  - by rewrite andb_false_r.
Qed.

Lemma content_round_trip_witness :
  get_content (H := stored_gzip)
    (set_content (H := stored_gzip) raw_a (Some payload_1024)) None
  = Ok (Some payload_1024).
Proof.
  assert (GzipLaws stored_gzip) as L.
  { split; [reflexivity|]. intros b. simpl. discriminate. }
  exact (content_round_trip stored_gzip L raw_a (Some payload_1024)).
Defined.

(** ** SubscriptionStore: creation by url *)

Lemma first_sorted_None {A} (lt : A → A → bool) (l : list A) :
  first (sorted lt l) = None ↔ l = [].
Proof.
  unfold first. split.
  - intros H. apply head_None in H. apply Permutation_nil_r.
    rewrite <-H. symmetry. apply sorted_perm.
  - by intros ->.
Qed.

Lemma first_sorted_elem {A} (lt : A → A → bool) (l : list A) x :
  first (sorted lt l) = Some x → x ∈ l.
Proof.
  unfold first. intros H. apply (elem_of_sorted lt).
  destruct (sorted lt l); simplify_eq/=. by left.
Qed.

Lemma filter_ext_in {A} (P Q : A → Prop) `{∀ a, Decision (P a)}
    `{∀ a, Decision (Q a)} (l : list A) :
  (∀ x, x ∈ l → P x ↔ Q x) → filter P l = filter Q l.
Proof.
  induction l as [|x l IH]; intros Hext; [done|].
  rewrite !filter_cons, IH by (intros; apply Hext; by right).
  destruct (decide (P x)) as [HP|HP], (decide (Q x)) as [HQ|HQ]; try done;
    exfalso; apply (Hext x ltac:(by left)) in HP || apply (Hext x ltac:(by left)) in HQ;
    done.
Qed.

(** With a unique key, the rows that share the key of a stored row are that
    row alone. *)
Lemma filter_unique_key {A B} `{EqDecision B} (g : A → B) (l : list A) x :
  NoDup (g <$> l) → x ∈ l → filter (λ y, g y = g x) l = [x].
Proof.
  induction l as [|y l IH]; intros Hnd Hx; [by apply elem_of_nil in Hx|].
  rewrite fmap_cons in Hnd. apply NoDup_cons in Hnd as [Hy Hnd].
  rewrite filter_cons. apply elem_of_cons in Hx as [->|Hx].
  - rewrite decide_True by done. f_equal. apply filter_none, Forall_forall.
    intros z Hz Heq. apply Hy. rewrite <-Heq. by apply list_elem_of_fmap_2.
  - rewrite decide_False; [by apply IH|].
    intros Heq. apply Hy. rewrite Heq. by apply list_elem_of_fmap_2.
Qed.

Lemma unique_key_inj {A B} (g : A → B) (l : list A) x y :
  NoDup (g <$> l) → x ∈ l → y ∈ l → g x = g y → x = y.
Proof.
  induction l as [|z l IH]; intros Hnd Hx Hy Heq; [by apply elem_of_nil in Hx|].
  rewrite fmap_cons in Hnd. apply NoDup_cons in Hnd as [Hz Hnd].
  apply elem_of_cons in Hx as [->|Hx]; apply elem_of_cons in Hy as [->|Hy].
  - done.
  - exfalso. apply Hz. rewrite Heq. by apply list_elem_of_fmap_2.
  - exfalso. apply Hz. rewrite <-Heq. by apply list_elem_of_fmap_2.
  - by apply IH.
Qed.

Lemma str_truthy_Some (t : string) :
  str_truthy (Some t) = true ↔ t ≠ EmptyString.
Proof. destruct t; simpl; split; congruence. Qed.

Lemma resolved_feed_spec (db : DB) (url : string) (f : Feed) :
  feed_url_wf db → resolved_feed db url = Some f ↔ resolves db url f.
Proof.
  intros Hwf. unfold resolved_feed, resolves.
  destruct (latest _ url) as [r|]; last first.
  { simpl. split; [done|]. by intros (? & ? & _). }
  change (fum_target <$> Some r) with (Some (fum_target r)).
  destruct (str_truthy (Some (fum_target r))) eqn:Ht.
  - apply str_truthy_Some in Ht. split.
    + intros Hf%first_sorted_elem.
      apply list_elem_of_filter in Hf as [[= Hu] Hf]. by exists r.
    + intros (r' & [= <-] & _ & Hf & Hu).
      rewrite (filter_ext_in _ (λ y, feed_url y = feed_url f)); last first.
      { intros x _. rewrite Hu. split; congruence. }
      by rewrite filter_unique_key.
  - split; [done|]. intros (r' & [= <-] & Hne & _).
    apply str_truthy_Some in Hne. congruence.
Qed.

Lemma create_by_url_eq (url : string) (user_id : Z) (db : DB) :
  create_by_url url user_id db =
    match resolved_feed db url with
    | Some f =>
        if decide (Exists (binds user_id f) (tbl_user_feed db))
        then (Raise FeedExistsException, db)
        else (Ok (new_user_feed user_id (Some f) url READY), db)
    | None => (Ok (new_user_feed user_id None url PENDING), db)
    end.
Proof.
  unfold create_by_url, bind at 1. rewrite find_target_eq.
  unfold resolved_feed.
  destruct (str_truthy _); unfold bind, objects, ret, raise; simpl; [|done].
  destruct (first (order_by _ _)) as [f|]; [|done].
  destruct (first (sorted _ _)) as [r|] eqn:E.
  - apply first_sorted_elem, list_elem_of_filter in E as [Hb Hr].
    rewrite decide_True; [done|]. apply Exists_exists. by exists r.
  - apply first_sorted_None in E. rewrite decide_False; [done|].
    intros (r & Hr & Hb)%Exists_exists.
    assert (r ∈ @nil UserFeed) as Hnil; [|by apply elem_of_nil in Hnil].
    rewrite <-E. by apply list_elem_of_filter.
Qed.

(** C10: create_by_url leaves the database as it found it, on the path that
    binds a feed, on the pending path and when it raises; the object it
    returns has no primary key, it was never inserted. *)
Theorem create_by_url_store_unchanged (url : string) (user_id : Z) (db : DB) :
  snd (create_by_url url user_id db) = db
  ∧ match fst (create_by_url url user_id db) with
    | Ok user_feed => uf_id user_feed = None ∧ uf_url user_feed = url
    | Raise e => e = FeedExistsException
    end.
Proof.
  rewrite create_by_url_eq.
  destruct (resolved_feed db url) as [f|]; [|done].
  by destruct (decide _).
Qed.

Lemma pk_taken_fresh (db : DB) :
  seq_wf db → pk_taken (tbl_user_feed db) (user_feed_seq db) = false.
Proof.
  intros Hwf. apply bool_decide_eq_false. intros (r & Hr & Hpk)%Exists_exists.
  unfold seq_wf in Hwf. rewrite Forall_forall in Hwf.
  specialize (Hwf r Hr _ Hpk). lia.
Qed.

Lemma violates_unique_false (rows : list UserFeed) (x : UserFeed) :
  violates_unique rows x = false ↔
    ∀ r fid, r ∈ rows → uf_user_id r = uf_user_id x →
             uf_feed_id x = Some fid → uf_feed_id r ≠ Some fid.
Proof.
  unfold violates_unique. rewrite bool_decide_eq_false, Exists_exists. split.
  - intros Hno r fid Hr Hu Hx Hf. apply Hno. exists r.
    rewrite Hx. by eauto.
  - intros Hno (r & Hr & Hu & [fid Hx] & Hf). apply (Hno r fid); congruence.
Qed.

(** Saving an object that has no primary key inserts it under the next key
    of the sequence. *)
Lemma save_insert (now : Z) (x : UserFeed) (db : DB) :
  seq_wf db → uf_id x = None → story_offset_fits x = true →
  violates_unique (tbl_user_feed db) x = false →
  save now x db =
    (Ok (inserted now (user_feed_seq db) x),
     set_user_feeds db
       (tbl_user_feed db ++ [inserted now (user_feed_seq db) x])
       (user_feed_seq db + 1)).
Proof.
  intros Hwf Hid Hfit Hu. unfold save. rewrite Hfit.
  rewrite bool_decide_eq_false_2; last first.
  { intros (r & _ & [? ?] & _)%Exists_exists. by rewrite Hid in *. }
  unfold insert_row. rewrite Hid. simpl.
  by rewrite pk_taken_fresh, Hu.
Qed.

Lemma resolved_feed_set_user_feeds db rows seq url :
  resolved_feed (set_user_feeds db rows seq) url = resolved_feed db url.
Proof. done. Qed.

(** C4, as the code behaves: the url resolves to a stored feed and the user
    has no subscription; two calls in succession both return a bound
    subscription, the second raises nothing, and the store holds no
    subscription afterwards. *)
Lemma create_by_url_twice_no_error :
  ∃ user_feed,
    create_by_url url_a_feed 7 db_a = (Ok user_feed, db_a)
    ∧ create_by_url url_a_feed 7 (snd (create_by_url url_a_feed 7 db_a))
      = (Ok user_feed, db_a)
    ∧ uf_feed_id user_feed = Some (feed_id feed_a)
    ∧ tbl_user_feed db_a = [].
Proof. eexists. repeat split; reflexivity. Qed.

(** C4, amended: create_by_url raises the duplicate-subscription error
    exactly when the url resolves to a stored feed F and a stored
    subscription binds (user, F).  When the url resolves to F and none
    binds it, the call returns a subscription bound to F with status ready
    and leaves the store alone (so a second call returns the same); once
    the caller has saved that subscription, the store holds exactly one
    subscription bound to (user, F) and the next call raises the error. *)
Theorem create_by_url_duplicate (db : DB) (url : string) (user_id now : Z) :
  feed_url_wf db → seq_wf db →
  (fst (create_by_url url user_id db) = Raise FeedExistsException
     ↔ ∃ f r, resolves db url f ∧ r ∈ tbl_user_feed db ∧ binds user_id f r)
  ∧ ∀ f, resolves db url f →
         (∀ r, r ∈ tbl_user_feed db → ¬ binds user_id f r) →
      ∃ user_feed saved db',
        create_by_url url user_id db = (Ok user_feed, db)
        ∧ outcome user_feed = (Some (feed_id f), READY, url)
        ∧ save now user_feed db = (Ok saved, db')
        ∧ filter (binds user_id f) (tbl_user_feed db') = [saved]
        ∧ create_by_url url user_id db' = (Raise FeedExistsException, db').
Proof.
  intros Hfeeds Hseq. split.
  - rewrite create_by_url_eq. split.
    + destruct (resolved_feed db url) as [f|] eqn:Hf; [|done].
      destruct (decide _) as [(r & Hr & Hb)%Exists_exists|]; [|done].
      intros _. exists f, r. by rewrite <-resolved_feed_spec.
    + intros (f & r & Hf%resolved_feed_spec & Hr & Hb); [|done].
      rewrite Hf, decide_True; [done|]. apply Exists_exists. by exists r.
  - intros f Hf%resolved_feed_spec Hfree; [|done].
    set (user_feed := new_user_feed user_id (Some f) url READY).
    assert (violates_unique (tbl_user_feed db) user_feed = false) as Hu.
    { apply violates_unique_false. intros r fid Hr Hus [= <-] Hfid.
      by apply (Hfree r Hr). }
    eexists user_feed, _, _. split; [|split; [done|split]].
    + rewrite create_by_url_eq, Hf, decide_False; [done|].
      intros (r & Hr & Hb)%Exists_exists. by apply (Hfree r Hr).
    + by apply save_insert.
    + split.
      * simpl. rewrite filter_app, filter_none, filter_cons_True; [done|done|].
        apply Forall_forall. intros r Hr. by apply Hfree.
      * rewrite create_by_url_eq, resolved_feed_set_user_feeds, Hf.
        rewrite decide_True; [done|]. simpl.
        apply Exists_app. right. by left.
Qed.

Lemma create_by_url_duplicate_witness :
  ∃ user_feed saved db',
    create_by_url url_a_feed 7 db_a = (Ok user_feed, db_a)
    ∧ outcome user_feed = (Some (feed_id feed_a), READY, url_a_feed)
    ∧ save 100 user_feed db_a = (Ok saved, db')
    ∧ filter (binds 7 feed_a) (tbl_user_feed db') = [saved]
    ∧ create_by_url url_a_feed 7 db' = (Raise FeedExistsException, db').
Proof.
  apply (create_by_url_duplicate db_a url_a_feed 7 100).
  - unfold feed_url_wf. simpl. apply NoDup_singleton.
  - unfold seq_wf. simpl. constructor.
  - exists map_a_rss. split; [reflexivity|].
    split; [discriminate|]. split; [by left|reflexivity].
  - simpl. intros r Hr. by apply elem_of_nil in Hr.
Defined.

(** ** SubscriptionStore: the incremental query *)

Lemma filter_visible (user_id : Z) (show_pending : bool)
    (rows : list UserFeed) :
  (if show_pending then filter (λ x, uf_user_id x = user_id) rows
   else exclude_pending (filter (λ x, uf_user_id x = user_id) rows))
  = filter (visible user_id show_pending) rows.
Proof.
  destruct show_pending; unfold exclude_pending.
  - apply filter_ext_in. intros x _. unfold visible.
    split; [by intros ->|by intros [? _]].
  - rewrite list_filter_filter. apply filter_ext_in. intros x _.
    unfold visible. split; [by intros [? ?]|].
    intros [? Hs]. split; [by apply Hs|done].
Qed.

(** C7, as the code behaves: without hints (absent or empty) query_by_user
    returns the user's subscriptions that pass the show_pending filter as a
    bare list; no total comes with it. *)
Theorem query_by_user_no_hints (db : DB) (user_id : Z)
    (detail show_pending : bool) :
  query_by_user user_id None detail show_pending db
    = (Ok (PyList (filter (visible user_id show_pending) (tbl_user_feed db))),
       db)
  ∧ query_by_user user_id (Some []) detail show_pending db
    = (Ok (PyList (filter (visible user_id show_pending) (tbl_user_feed db))),
       db).
Proof.
  unfold query_by_user, bind, objects, ret. simpl.
  by rewrite filter_visible.
Qed.

(** Where no comparison raises, the raising sort is the plain one. *)
Lemma insert_sorted_r_pure {A} (ltr : A → A → Res bool) (lt : A → A → bool)
    (x : A) (k : list A) :
  (∀ y, y ∈ k → ltr y x = Ok (lt y x)) →
  insert_sorted_r ltr x k = Ok (insert_sorted lt x k).
Proof.
  induction k as [|y k IH]; intros Hx; simpl; [done|].
  rewrite Hx by by left. simpl. destruct (lt y x); [|done].
  rewrite IH by (intros; apply Hx; by right). done.
Qed.

Lemma sorted_r_pure {A} (ltr : A → A → Res bool) (lt : A → A → bool)
    (l : list A) :
  (∀ x y, x ∈ l → y ∈ l → ltr y x = Ok (lt y x)) →
  sorted_r ltr l = Ok (sorted lt l).
Proof.
  induction l as [|x l IH]; intros Hpure; simpl; [done|].
  rewrite IH by (intros; apply Hpure; by right). simpl.
  apply insert_sorted_r_pure.
  intros y Hy%elem_of_sorted. apply Hpure; [by left|by right].
Qed.

Lemma py_tuple_lt_pure (x y : UserFeed) :
  is_Some (uf_dt_updated x) → is_Some (uf_dt_updated y) →
  is_Some (uf_id x) → is_Some (uf_id y) →
  py_tuple_lt (changed_key x) (changed_key y) = Ok (changed_lt y x).
Proof.
  intros [dx Hdx] [dy Hdy] [ix Hix] [iy Hiy].
  unfold py_tuple_lt, changed_key, changed_lt. simpl.
  rewrite Hdx, Hdy, Hix, Hiy. simpl.
  destruct (decide (dx = dy)) as [->|Hd].
  - rewrite (bool_decide_eq_true_2 (Some dy = Some dy)) by done.
    destruct (decide (ix = iy)) as [->|Hi].
    + rewrite (bool_decide_eq_true_2 (Some iy = Some iy)) by done.
      f_equal. symmetry. apply bool_decide_eq_false. lia.
    + rewrite (bool_decide_eq_false_2 (Some ix = Some iy)) by congruence.
      f_equal. apply bool_decide_ext. lia.
  - rewrite (bool_decide_eq_false_2 (Some dx = Some dy)) by congruence.
    f_equal. apply bool_decide_ext. lia.
Qed.

Lemma collect_updates_recorded (hints : gmap Z Z) (q : list UserFeed) :
  Forall (λ r, is_Some (uf_dt_updated r)) q →
  collect_updates hints q = Ok (uf_id <$> filter (changed_since hints) q).
Proof.
  induction 1 as [|r q [d Hd] _ IH]; simpl; [done|].
  rewrite IH, filter_cons.
  destruct (uf_id r ≫= _) as [hinted|] eqn:E; simpl.
  - rewrite Hd. simpl. case_bool_decide.
    + rewrite decide_True; [done|].
      unfold changed_since. by rewrite E, Hd.
    + rewrite decide_False; [done|].
      unfold changed_since. by rewrite E, Hd.
  - rewrite decide_True; [done|]. unfold changed_since. by rewrite E.
Qed.

(** The second query: the rows whose id was collected are the visible rows
    that changed. *)
Lemma filter_updates (user_id : Z) (show_pending : bool) (hints : gmap Z Z)
    (rows : list UserFeed) :
  pk_wf rows →
  (if show_pending
   then filter (λ x, uf_user_id x = user_id
                     ∧ uf_id x ∈ uf_id <$> filter (changed_since hints)
                         (filter (visible user_id show_pending) rows)) rows
   else exclude_pending
          (filter (λ x, uf_user_id x = user_id
                        ∧ uf_id x ∈ uf_id <$> filter (changed_since hints)
                            (filter (visible user_id show_pending) rows))
             rows))
  = filter (λ r, visible user_id show_pending r ∧ changed_since hints r) rows.
Proof.
  intros [_ Hnd].
  assert (∀ x, x ∈ rows →
    uf_id x ∈ uf_id <$> filter (changed_since hints)
                          (filter (visible user_id show_pending) rows)
    ↔ visible user_id show_pending x ∧ changed_since hints x) as Hin.
  { intros x Hx. rewrite list_elem_of_fmap. split.
    - intros (y & Hid & Hy). rewrite !list_elem_of_filter in Hy.
      destruct Hy as (Hc & Hv & Hy).
      by rewrite (unique_key_inj uf_id rows x y Hnd Hx Hy Hid).
    - intros [Hv Hc]. exists x. by rewrite !list_elem_of_filter. }
  destruct show_pending; unfold exclude_pending;
    [|rewrite (list_filter_filter (λ x, uf_status x ≠ PENDING))];
    apply filter_ext_in; intros x Hx; cbv beta; rewrite (Hin x Hx);
    unfold visible.
  - split; [by intros [_ ?]|]. by intros [[? ?] ?].
  - split; [by intros (_ & _ & ?)|]. intros [[? Hs] ?].
    split; [by apply Hs|done].
Qed.

(** The dict built from the hints holds, for an id, the dt_updated of the
    last hint that names it. *)
Lemma hints_fold_lookup (hints : list Hint) (m : gmap Z Z) (i : Z) :
  foldl (λ d x, <[hint_id x := hint_dt_updated x]> d) m hints !! i =
  match last (filter (λ h, hint_id h = i) hints) with
  | Some h => Some (hint_dt_updated h)
  | None => m !! i
  end.
Proof.
  revert m. induction hints as [|h hints IH]; intros m; simpl; [done|].
  rewrite IH, filter_cons. destruct (decide (hint_id h = i)) as [Hi|Hi].
  - rewrite last_cons. destruct (last _); [done|].
    subst i. by rewrite lookup_insert_eq.
  - destruct (last _); [done|]. by rewrite lookup_insert_ne.
Qed.

Lemma hints_dict_lookup (hints : list Hint) (i : Z) :
  hints_dict hints !! i = hint_for hints i.
Proof.
  unfold hints_dict, hint_for. rewrite hints_fold_lookup, lookup_empty.
  by destruct (last _).
Qed.

Lemma hints_dict_bind (hints : list Hint) (k : option Z) :
  k ≫= (hints_dict hints !!.) = k ≫= hint_for hints.
Proof. destruct k; simpl; [apply hints_dict_lookup|done]. Qed.

Lemma changed_since_against (hints : list Hint) (r : UserFeed) :
  changed_since (hints_dict hints) r ↔ changed_against hints r.
Proof. unfold changed_since, changed_against. by rewrite hints_dict_bind. Qed.

Lemma hinted_null_named (hints : list Hint) (r : UserFeed) :
  hinted_null (hints_dict hints) r ↔ named_null hints r.
Proof. unfold hinted_null, named_null. by rewrite hints_dict_bind. Qed.

(** Changed against the hints, spelled out on the hint list. *)
Lemma changed_against_spec (hints : list Hint) (r : UserFeed) :
  changed_against hints r ↔
    ∀ i hinted, uf_id r = Some i → hint_for hints i = Some hinted →
      ∃ d, uf_dt_updated r = Some d ∧ hinted < d.
Proof.
  unfold changed_against. destruct (uf_id r) as [i|]; simpl;
    [|split; [by intros _ ? ? [=]|done]].
  destruct (hint_for hints i) as [hinted|] eqn:E;
    [|split; [intros _ ? ? [= <-]; congruence|done]].
  split.
  - intros Hc ? ? [= <-] Hh. rewrite E in Hh. injection Hh as <-.
    destruct (uf_dt_updated r) as [d|]; [by exists d|done].
  - intros Hc. destruct (Hc i hinted eq_refl E) as (d & -> & ?). done.
Qed.

(** The hinted query over subscriptions whose dt_updated is recorded. *)
Lemma query_by_user_hinted (db : DB) (user_id : Z) (hint : Hint)
    (hints' : list Hint) (detail show_pending : bool) :
  pk_wf (tbl_user_feed db) →
  (∀ r, r ∈ tbl_user_feed db → uf_user_id r = user_id →
        is_Some (uf_dt_updated r)) →
  ∃ changed,
    query_by_user user_id (Some (hint :: hints')) detail show_pending db
      = (Ok (PyTuple
               (length (filter (visible user_id show_pending)
                          (tbl_user_feed db)))
               changed), db)
    ∧ changed
      = sorted changed_lt
          (filter (λ r, visible user_id show_pending r
                        ∧ changed_against (hint :: hints') r)
             (tbl_user_feed db))
    ∧ ∀ s, s ∈ changed ↔
        s ∈ tbl_user_feed db ∧ visible user_id show_pending s
        ∧ ∀ i hinted, uf_id s = Some i →
            hint_for (hint :: hints') i = Some hinted →
            ∃ d, uf_dt_updated s = Some d ∧ hinted < d.
Proof.
  intros Hpk Hrec. eexists. split; [|split; [reflexivity|]].
  - unfold query_by_user, bind, objects, lift, ret.
    rewrite filter_visible, collect_updates_recorded; last first.
    { apply Forall_forall. intros r [[Hu _] Hr]%list_elem_of_filter.
      by apply Hrec. }
    cbv zeta beta iota. unfold bind, objects, lift, ret. cbv zeta beta iota.
    rewrite (filter_updates user_id show_pending
               (hints_dict (hint :: hints')) _ Hpk).
    rewrite (filter_ext_in _
               (λ r, visible user_id show_pending r
                     ∧ changed_against (hint :: hints') r));
      [|by intros r _; rewrite changed_since_against].
    rewrite (sorted_r_pure _ changed_lt); [done|].
    intros x y [[[Hx _] _] Hxr]%list_elem_of_filter
               [[[Hy _] _] Hyr]%list_elem_of_filter.
    destruct Hpk as [Hsome _]. rewrite Forall_forall in Hsome.
    apply py_tuple_lt_pure; auto.
  - intros s. rewrite elem_of_sorted, list_elem_of_filter.
    rewrite changed_against_spec. tauto.
Qed.

(** C1: with a non-empty hint list, over subscriptions whose dt_updated is
    recorded, query_by_user returns the pair of a total and a changed list;
    the total is the number of the user's subscriptions that pass the
    show_pending filter, whatever the hints; the changed list holds exactly
    those of them whose id no hint of the list names or whose dt_updated is
    greater than the dt_updated of the last hint that names the id, sorted
    by (dt_updated, id) descending. *)
Theorem query_by_user_diff (db : DB) (user_id : Z) (hint : Hint)
    (hints' : list Hint) (detail show_pending : bool) :
  pk_wf (tbl_user_feed db) →
  (∀ r, r ∈ tbl_user_feed db → uf_user_id r = user_id →
        is_Some (uf_dt_updated r)) →
  ∃ changed,
    query_by_user user_id (Some (hint :: hints')) detail show_pending db
      = (Ok (PyTuple
               (length (filter (visible user_id show_pending)
                          (tbl_user_feed db)))
               changed), db)
    ∧ changed
      = sorted changed_lt
          (filter (λ r, visible user_id show_pending r
                        ∧ changed_against (hint :: hints') r)
             (tbl_user_feed db))
    ∧ ∀ s, s ∈ changed ↔
        s ∈ tbl_user_feed db ∧ visible user_id show_pending s
        ∧ ∀ i hinted, uf_id s = Some i →
            hint_for (hint :: hints') i = Some hinted →
            ∃ d, uf_dt_updated s = Some d ∧ hinted < d.
Proof. apply query_by_user_hinted. Qed.

Lemma query_by_user_diff_witness :
  ∃ changed,
    query_by_user 7 (Some [mkHint 1 5]) false false db_subs
      = (Ok (PyTuple
               (length (filter (visible 7 false) (tbl_user_feed db_subs)))
               changed), db_subs)
    ∧ changed
      = sorted changed_lt
          (filter (λ r, visible 7 false r ∧ changed_against [mkHint 1 5] r)
             (tbl_user_feed db_subs))
    ∧ ∀ s, s ∈ changed ↔
        s ∈ tbl_user_feed db_subs ∧ visible 7 false s
        ∧ ∀ i hinted, uf_id s = Some i →
            hint_for [mkHint 1 5] i = Some hinted →
            ∃ d, uf_dt_updated s = Some d ∧ hinted < d.
Proof.
  apply (query_by_user_diff db_subs 7 (mkHint 1 5) [] false false).
  - split.
    + simpl. repeat constructor; by eexists.
    + simpl. compute_done.
  - simpl. intros r Hr _.
    repeat (apply elem_of_cons in Hr as [->|Hr]; [by eexists|]).
    by apply elem_of_nil in Hr.
Defined.

(** The scenario of the specification: subscription 1 is hinted at its
    current dt_updated, subscription 2 is not hinted; the changed list is
    subscription 2 alone and the total counts both. *)
Example query_by_user_no_hints_scenario :
  fst (query_by_user 7 None false false db_subs) = Ok (PyList [sub_1; sub_2]).
Proof. by vm_compute. Qed.

Example query_by_user_scenario :
  fst (query_by_user 7 (Some [mkHint 1 5]) false false db_subs)
  = Ok (PyTuple 2 [sub_2]).
Proof. by vm_compute. Qed.

(** ** SubscriptionStore: the story offset *)

(** Saving a stored row again, with its bound pair unchanged, replaces it by
    a new version stored behind the other rows. *)
Lemma save_update (now : Z) (old self : UserFeed) (db : DB) :
  pk_wf (tbl_user_feed db) → pair_wf (tbl_user_feed db) →
  old ∈ tbl_user_feed db →
  uf_id self = uf_id old → uf_user_id self = uf_user_id old →
  uf_feed_id self = uf_feed_id old →
  story_offset_fits self = true →
  save now self db =
    (Ok self,
     set_user_feeds db
       (filter (λ r, uf_id r ≠ uf_id old) (tbl_user_feed db) ++ [self])
       (user_feed_seq db)).
Proof.
  intros [Hsome Hnd] Hpair Hold Hid Hus Hfeed Hfit. unfold save. rewrite Hfit.
  rewrite Forall_forall in Hsome. pose proof (Hsome old Hold) as Hpk.
  rewrite bool_decide_eq_true_2; last first.
  { apply Exists_exists. exists old. rewrite Hid. by auto. }
  assert (violates_unique
            (filter (λ r, ¬ (is_Some (uf_id self) ∧ uf_id r = uf_id self))
               (tbl_user_feed db)) self = false) as ->.
  { apply violates_unique_false. intros r fid [Hne Hr]%list_elem_of_filter Hu Hf Hrf.
    apply Hne. rewrite Hid. split; [done|]. f_equal.
    apply Hpair; [done|done|congruence| |congruence].
    rewrite Hrf. by eexists. }
  do 3 f_equal. apply filter_ext_in. intros r _. rewrite Hid. by intuition.
Qed.

Lemma elem_of_update_rows (old self : UserFeed) (rows : list UserFeed) r :
  r ∈ filter (λ r, uf_id r ≠ uf_id old) rows ++ [self] →
  r = self ∨ (r ∈ rows ∧ uf_id r ≠ uf_id old).
Proof.
  intros [[? ?]%list_elem_of_filter| ->%list_elem_of_singleton]%elem_of_app;
    auto.
Qed.

Lemma update_rows_pk_wf (old self : UserFeed) (rows : list UserFeed) :
  pk_wf rows → old ∈ rows → uf_id self = uf_id old →
  pk_wf (filter (λ r, uf_id r ≠ uf_id old) rows ++ [self]).
Proof.
  intros [Hsome Hnd] Hold Hid. rewrite Forall_forall in Hsome. split.
  - apply Forall_forall. intros r [->|[Hr _]]%elem_of_update_rows.
    + rewrite Hid. by apply Hsome.
    + by apply Hsome.
  - rewrite fmap_app. apply NoDup_app. split; [|split].
    + eapply sublist_NoDup; [exact Hnd|].
      apply fmap_sublist, sublist_filter.
    + intros k (r & -> & [Hne _]%list_elem_of_filter)%list_elem_of_fmap
        Heq%list_elem_of_singleton. congruence.
    + apply NoDup_singleton.
Qed.

(** The subscription after update_story_offset. *)
Lemma update_story_offset_eq (now : Z) (self : UserFeed) (offset : Z) (db : DB) :
  pk_wf (tbl_user_feed db) → pair_wf (tbl_user_feed db) →
  self ∈ tbl_user_feed db → int4 offset →
  ∃ self' db',
    update_story_offset now self offset db = (Ok self', db')
    ∧ uf_story_offset self' = Some offset
    ∧ uf_dt_updated self' = Some now
    ∧ uf_id self' = uf_id self ∧ uf_user_id self' = uf_user_id self
    ∧ uf_status self' = uf_status self
    ∧ self' ∈ tbl_user_feed db'
    ∧ pk_wf (tbl_user_feed db')
    ∧ ∀ r, r ∈ tbl_user_feed db' →
           r = self' ∨ (r ∈ tbl_user_feed db ∧ r ≠ self).
Proof.
  intros Hpk Hpair Hself Hfit. unfold update_story_offset.
  eexists _, _. split.
  { eapply (save_update now self); [done..|].
    by apply bool_decide_eq_true_2. }
  simpl. repeat split.
  - apply elem_of_app. right. by left.
  - by apply update_rows_pk_wf.
  - by apply update_rows_pk_wf.
  - intros r [->|[Hr Hne]]%elem_of_update_rows; [by left|].
    right. split; [done|congruence].
Qed.

(** C9, as the code behaves: a pending subscription hinted at time 2 has
    its offset updated at time 50; the next diff query with show_pending
    off does not list it. *)
Lemma pending_update_not_listed :
  ∃ self' db' total changed,
    update_story_offset 50 sub_3 4 db_subs = (Ok self', db')
    ∧ uf_dt_updated self' = Some 50
    ∧ hint_for [mkHint 3 2] 3 = Some 2
    ∧ query_by_user 7 (Some [mkHint 3 2]) false false db'
      = (Ok (PyTuple total changed), db')
    ∧ self' ∉ changed.
Proof.
  eexists _, _, _, _.
  split; [by vm_compute|]. split; [done|]. split; [done|].
  split; [by vm_compute|].
  intros Hin. repeat (apply elem_of_cons in Hin as [[=]|Hin]).
  by apply elem_of_nil in Hin.
Qed.

(** C9, amended: update_story_offset on a stored subscription, with an
    offset that fits the 32-bit story_offset column, sets story_offset to
    the offset and dt_updated to the current time, later than the previous
    dt_updated under a monotonic clock; in the user's next diff query (the
    user's other subscriptions having a recorded dt_updated) the
    subscription is in the changed list whenever its hinted timestamp
    predates the update and it passes the show_pending filter. *)
Theorem update_story_offset_listed (db : DB) (self : UserFeed)
    (offset now : Z) (hint : Hint) (hints' : list Hint)
    (detail show_pending : bool) :
  pk_wf (tbl_user_feed db) → pair_wf (tbl_user_feed db) →
  self ∈ tbl_user_feed db →
  int4 offset →
  (∀ t, uf_dt_updated self = Some t → t < now) →
  (∀ r, r ∈ tbl_user_feed db → uf_user_id r = uf_user_id self → r ≠ self →
        is_Some (uf_dt_updated r)) →
  (∀ i hinted, uf_id self = Some i →
     hint_for (hint :: hints') i = Some hinted → hinted < now) →
  visible (uf_user_id self) show_pending self →
  ∃ self' db' total changed,
    update_story_offset now self offset db = (Ok self', db')
    ∧ uf_story_offset self' = Some offset
    ∧ uf_dt_updated self' = Some now
    ∧ (∀ t, uf_dt_updated self = Some t → Some t ≠ uf_dt_updated self' ∧ t < now)
    ∧ query_by_user (uf_user_id self) (Some (hint :: hints')) detail
        show_pending db' = (Ok (PyTuple total changed), db')
    ∧ self' ∈ changed.
Proof.
  intros Hpk Hpair Hself Hfit Hclock Hrec Hhint Hvis.
  destruct (update_story_offset_eq now self offset db Hpk Hpair Hself Hfit)
    as (self' & db' & Hrun & Hoff & Hdt & Hid & Hus & Hst & Hin & Hpk' & Hrows).
  destruct (query_by_user_hinted db' (uf_user_id self) hint hints' detail
              show_pending Hpk') as (changed & Hq & _ & Hchanged).
  { intros r [->|[Hr Hne]]%Hrows Hu; [by rewrite Hdt|by apply Hrec]. }
  eexists self', db', _, changed.
  split; [done|]. split; [done|]. split; [done|]. split.
  { intros t Ht. specialize (Hclock t Ht). rewrite Hdt.
    split; [intros [= ?]; lia|done]. }
  split; [done|]. apply Hchanged. split; [done|]. split.
  - destruct Hvis as [_ Hp]. split; [done|]. by rewrite Hst.
  - intros i hinted Hi Hh. exists now. split; [done|].
    apply (Hhint i); [congruence|done].
Qed.

Lemma update_story_offset_listed_witness :
  ∃ self' db' total changed,
    update_story_offset 50 sub_1 4 db_subs = (Ok self', db')
    ∧ uf_story_offset self' = Some 4
    ∧ uf_dt_updated self' = Some 50
    ∧ (∀ t, uf_dt_updated sub_1 = Some t → Some t ≠ uf_dt_updated self' ∧ t < 50)
    ∧ query_by_user (uf_user_id sub_1) (Some [mkHint 1 5]) false false db'
      = (Ok (PyTuple total changed), db')
    ∧ self' ∈ changed.
Proof.
  apply (update_story_offset_listed db_subs sub_1 4 50 (mkHint 1 5) []
           false false).
  - split; [simpl; repeat constructor; by eexists|simpl; compute_done].
  - intros r1 r2 Hr1 Hr2. simpl in Hr1, Hr2.
    repeat (apply elem_of_cons in Hr1 as [->|Hr1]);
      try (by apply elem_of_nil in Hr1);
      repeat (apply elem_of_cons in Hr2 as [->|Hr2]);
      try (by apply elem_of_nil in Hr2);
      simpl; intros _ [? [=]] ?; done.
  - simpl. by left.
  - unfold int4. lia.
  - simpl. intros t [= <-]. lia.
  - simpl. intros r Hr _ _.
    repeat (apply elem_of_cons in Hr as [->|Hr]; [by eexists|]).
    by apply elem_of_nil in Hr.
  - simpl. intros i hinted [= <-]. vm_compute. intros [= <-]. done.
  - split; [done|]. simpl. discriminate.
Defined.

(** The scenario after the update: subscription 1, hinted at its earlier
    dt_updated, heads the changed list; a scan of the table yields it
    last. *)
Example update_story_offset_scenario :
  ∃ self' db',
    update_story_offset 50 sub_1 4 db_subs = (Ok self', db')
    ∧ tbl_user_feed db' = [sub_2; sub_3; self']
    ∧ fst (query_by_user 7 (Some [mkHint 1 5]) false false db')
      = Ok (PyTuple 2 [self'; sub_2]).
Proof. eexists _, _. split; [reflexivity|]. split; by vm_compute. Qed.

(** ** SubscriptionStore: bulk creation *)

(** Building a dict from rows: the last row of a key decides its entry. *)
Lemma feed_map_lookup (found : list Feed) (m : gmap string Feed) (t : string) :
  foldl (λ m x, <[feed_url x := x]> m) m found !! t =
  match last (filter (λ f, feed_url f = t) found) with
  | Some f => Some f
  | None => m !! t
  end.
Proof.
  revert m. induction found as [|f found IH]; intros m; simpl; [done|].
  rewrite IH, filter_cons. destruct (decide (feed_url f = t)) as [Ht|Ht].
  - rewrite last_cons. destruct (last _); [done|].
    subst t. by rewrite lookup_insert_eq.
  - destruct (last _); [done|]. by rewrite lookup_insert_ne.
Qed.

(** With unique keys, the rows of one key are none or a single row. *)
Lemma filter_key_cases {A B} `{EqDecision B} (g : A → B) (l : list A) (k : B) :
  NoDup (g <$> l) →
  (filter (λ y, g y = k) l = [] ∧ ∀ y, y ∈ l → g y ≠ k)
  ∨ ∃ x, x ∈ l ∧ g x = k ∧ filter (λ y, g y = k) l = [x].
Proof.
  intros Hnd. destruct (decide (Exists (λ y, g y = k) l)) as [Hex|Hno].
  - right. apply Exists_exists in Hex as (x & Hx & Hk). exists x.
    split; [done|split; [done|]]. subst k. by apply filter_unique_key.
  - left. rewrite <-Forall_Exists_neg in Hno. split.
    + by apply filter_none.
    + by apply Forall_forall.
Qed.

Lemma resolved_feed_cases (db : DB) (url : string) :
  feed_url_wf db →
  match latest (tbl_feed_url_map db) url with
  | Some r =>
      resolved_feed db url =
        if str_truthy (Some (fum_target r))
        then last (filter (λ f, feed_url f = fum_target r) (tbl_feed db))
        else None
  | None => resolved_feed db url = None
  end.
Proof.
  intros Hwf. unfold resolved_feed.
  destruct (latest _ url) as [r|]; [|done].
  change (fum_target <$> Some r) with (Some (fum_target r)).
  destruct (str_truthy _); [|done].
  rewrite (filter_ext_in _ (λ f, feed_url f = fum_target r)); last first.
  { intros x _. split; congruence. }
  destruct (filter_key_cases feed_url (tbl_feed db) (fum_target r) Hwf)
    as [[-> _]|(f & _ & _ & ->)]; done.
Qed.

(** The lookup chain of the bulk loop finds the feed that create_by_url
    resolves. *)
Lemma bulk_lookup (db : DB) (urls : list string) (url_map : gmap string string)
    (url : string) :
  feed_url_wf db →
  (∀ f, f ∈ tbl_feed db → feed_url f ≠ EmptyString) →
  (∀ s, url_map !! s =
      if decide (s ∈ urls)
      then fum_target <$> latest (tbl_feed_url_map db) s else None) →
  url ∈ urls →
  url_map !! url ≫=
    (feed_map_of
       (filter (λ f, feed_url f ∈ (map_img url_map : gset string))
          (tbl_feed db)) !!.)
  = resolved_feed db url.
Proof.
  intros Hwf Hne Hlook Hin.
  pose proof (resolved_feed_cases db url Hwf) as Hres.
  rewrite Hlook, decide_True by done.
  destruct (latest _ url) as [r|] eqn:Hl; simpl; [|done].
  unfold feed_map_of.
  rewrite Hres, feed_map_lookup, lookup_empty, list_filter_filter.
  rewrite (filter_ext_in _ (λ f, feed_url f = fum_target r)); last first.
  { intros f _. split; [by intros [? _]|]. intros Hf. split; [done|].
    rewrite Hf. apply elem_of_map_img. exists url.
    by rewrite Hlook, decide_True, Hl. }
  destruct (str_truthy _) eqn:Ht; [by destruct (last _)|].
  assert (fum_target r = EmptyString) as ->.
  { destruct (fum_target r); [done|discriminate]. }
  rewrite filter_none; [done|]. by apply Forall_forall.
Qed.

Lemma bulk_candidates_eq (db : DB) (urls all : list string)
    (url_map : gmap string string) (user_id : Z) :
  feed_url_wf db →
  (∀ f, f ∈ tbl_feed db → feed_url f ≠ EmptyString) →
  (∀ s, url_map !! s =
      if decide (s ∈ all)
      then fum_target <$> latest (tbl_feed_url_map db) s else None) →
  urls ⊆ all →
  bulk_candidates url_map
    (feed_map_of
       (filter (λ f, feed_url f ∈ (map_img url_map : gset string))
          (tbl_feed db)))
    ∅ user_id urls
  = candidate db user_id <$> urls.
Proof.
  intros Hwf Hne Hlook. induction urls as [|url urls IH]; intros Hsub; [done|].
  simpl. rewrite IH by set_solver.
  rewrite (bulk_lookup db all) by (done || set_solver).
  unfold candidate. destruct (resolved_feed db url) as [f|]; [|done].
  rewrite lookup_empty, bool_decide_eq_false_2; [done|]. by intros [? ?].
Qed.

Lemma omap_fmap {A B C} (f : B → option C) (g : A → B) (l : list A) :
  omap f (g <$> l) = omap (λ x, f (g x)) l.
Proof. induction l as [|x l IH]; csimpl; [done|]. by rewrite IH. Qed.

(** The batches of a list, put together, are the list. *)
Lemma batches_concat {A} (fuel batch_size : nat) (objs : list A) :
  (0 < batch_size)%nat → (length objs ≤ fuel)%nat →
  concat (batches fuel batch_size objs) = objs.
Proof.
  intros Hn. revert objs.
  induction fuel as [|fuel IH]; intros [|x objs] Hlen; simpl in *;
    [done|lia|done|].
  destruct batch_size as [|n]; [lia|]. simpl.
  rewrite IH; [by rewrite take_drop|]. rewrite length_drop. lia.
Qed.

Lemma batches_Forall {A} (P : A → Prop) (fuel batch_size : nat)
    (objs : list A) :
  Forall P objs → Forall (Forall P) (batches fuel batch_size objs).
Proof.
  revert objs. induction fuel as [|fuel IH]; intros [|x objs] Hall;
    simpl; [constructor..|].
  constructor; [by apply Forall_take|]. by apply IH, Forall_drop.
Qed.

(** Inserting a list of rows is inserting a first part and then the
    rest. *)
Lemma insert_all_app (now : Z) (l1 l2 rows : list UserFeed) (seq : Z) :
  insert_all now (l1 ++ l2) rows seq =
    match insert_all now l1 rows seq with
    | (Some (c1, rows1), seq1) =>
        match insert_all now l2 rows1 seq1 with
        | (Some (c2, rows2), seq2) => (Some (c1 ++ c2, rows2), seq2)
        | (None, seq2) => (None, seq2)
        end
    | (None, seq1) => (None, seq1)
    end.
Proof.
  revert rows seq. induction l1 as [|x l1 IH]; intros rows seq;
    cbn [app insert_all].
  - by destruct (insert_all now l2 rows seq) as [[[c2 rows2]|] seq2].
  - destruct (insert_row now x rows seq) as [[[x' rows']|] seq']; [|done].
    rewrite IH.
    destruct (insert_all now l1 rows' seq') as [[[c1 rows1]|] seq1]; [|done].
    by destruct (insert_all now l2 rows1 seq1) as [[[c2 rows2]|] seq2].
Qed.

(** When every value fits its column the batches do not show in the
    outcome. *)
Lemma insert_batches_eq (now : Z) (bs : list (list UserFeed))
    (rows : list UserFeed) (seq : Z) :
  Forall (Forall (λ x, story_offset_fits x = true)) bs →
  insert_batches now bs rows seq =
    match insert_all now (concat bs) rows seq with
    | (Some p, seq') => (Ok p, seq')
    | (None, seq') => (Raise IntegrityError, seq')
    end.
Proof.
  intros Hfit. revert rows seq.
  induction Hfit as [|b bs Hb _ IH]; intros rows seq; [done|].
  cbn [insert_batches concat]. rewrite insert_all_app.
  assert (forallb story_offset_fits b = true) as ->.
  { apply Is_true_true, forallb_True. eapply Forall_impl; [exact Hb|].
    intros x Hx. simpl in Hx. by rewrite Hx. }
  destruct (insert_all now b rows seq) as [[[c rows']|] seq']; [|done].
  rewrite IH.
  by destruct (insert_all now (concat bs) rows' seq') as [[[c2 rows2]|] seq2].
Qed.

Lemma bulk_create_eq (now : Z) (objs : list UserFeed) (batch_size : Z)
    (db : DB) :
  0 < batch_size → Forall (λ x, story_offset_fits x = true) objs →
  bulk_create now objs batch_size db =
    match insert_all now objs (tbl_user_feed db) (user_feed_seq db) with
    | (Some (created, rows), seq) => (Ok created, set_user_feeds db rows seq)
    | (None, seq) =>
        (Raise IntegrityError, set_user_feeds db (tbl_user_feed db) seq)
    end.
Proof.
  intros Hbatch Hfit. unfold bulk_create, batched.
  rewrite bool_decide_eq_true_2 by done.
  rewrite insert_batches_eq by by apply batches_Forall.
  rewrite batches_concat by lia.
  by destruct (insert_all _ _ _ _) as [[[created rows]|] seq].
Qed.

Lemma candidate_fits (db : DB) (user_id : Z) (urls : list string) :
  Forall (λ x, story_offset_fits x = true) (candidate db user_id <$> urls).
Proof.
  apply Forall_fmap, Forall_forall. intros url _. simpl. unfold candidate.
  by destruct (resolved_feed db url).
Qed.

(** bulk_create inserts objects that carry no key, that do not clash with
    the stored rows and that bind pairwise different feeds for one user. *)
Lemma insert_all_ok (now : Z) (objs rows : list UserFeed) (seq : Z) :
  (∀ r pk, r ∈ rows → uf_id r = Some pk → pk < seq) →
  Forall (λ x, uf_id x = None) objs →
  (∀ x, x ∈ objs → violates_unique rows x = false) →
  NoDup (omap uf_feed_id objs) →
  ∃ created,
    insert_all now objs rows seq
      = (Some (created, rows ++ created), seq + Z.of_nat (length objs))
    ∧ outcome <$> created = outcome <$> objs.
Proof.
  revert rows seq.
  induction objs as [|x objs IH]; intros rows seq Hseq Hnew Hrows Hnd.
  { exists []. simpl. rewrite app_nil_r. split; [f_equal; lia|done]. }
  apply Forall_cons in Hnew as [Hx Hnew].
  assert (NoDup (omap uf_feed_id objs)
          ∧ ∀ fid, uf_feed_id x = Some fid → fid ∉ omap uf_feed_id objs)
    as [Hnd' Hxfree].
  { simpl in Hnd. destruct (uf_feed_id x) as [fid|].
    - apply NoDup_cons in Hnd as [? ?]. split; [done|]. by intros ? [= <-].
    - split; [done|]. by intros. }
  destruct (IH (rows ++ [inserted now seq x]) (seq + 1)) as (created & Hrun & Hout).
  - intros r pk [Hr|Hr]%elem_of_app Hpk.
    + specialize (Hseq r pk Hr Hpk). lia.
    + apply list_elem_of_singleton in Hr as ->.
      simpl in Hpk. injection Hpk as <-. lia.
  - done.
  - intros y Hy. apply violates_unique_false.
    intros r fid [Hr|Hr]%elem_of_app Hu Hf Hrf.
    + pose proof (Hrows y ltac:(by right)) as Hv.
      rewrite violates_unique_false in Hv. by apply (Hv r fid).
    + apply list_elem_of_singleton in Hr as ->.
      simpl in Hrf. apply (Hxfree fid Hrf).
      apply list_elem_of_omap. by exists y.
  - done.
  - exists (inserted now seq x :: created). split.
    + rewrite length_cons, Nat2Z.inj_succ.
      simpl. unfold insert_row. rewrite Hx. simpl.
      assert (pk_taken rows seq = false) as ->.
      { apply bool_decide_eq_false. intros (r & Hr & Hpk)%Exists_exists.
        specialize (Hseq r seq Hr Hpk). lia. }
      rewrite (Hrows x) by by left. simpl. rewrite Hrun.
      rewrite <-app_assoc. simpl.
      replace (seq + Z.succ (Z.of_nat (length objs)))
        with (seq + 1 + Z.of_nat (length objs)) by lia.
      done.
    + rewrite !fmap_cons. by rewrite Hout.
Qed.

Lemma candidate_single (db : DB) (user_id : Z) (url : string) :
  (∀ r, r ∈ tbl_user_feed db → uf_user_id r ≠ user_id) →
  create_by_url url user_id db = (Ok (candidate db user_id url), db).
Proof.
  intros Hnone. rewrite create_by_url_eq. unfold candidate.
  destruct (resolved_feed db url) as [f|]; [|done].
  rewrite decide_False; [done|].
  intros (r & Hr & Hu & _)%Exists_exists. by apply (Hnone r).
Qed.

(** The bulk path for a user without subscriptions. *)
Lemma create_by_url_s_eq (db : DB) (urls : list string)
    (user_id now batch_size : Z) :
  feed_url_wf db → seq_wf db →
  (∀ f, f ∈ tbl_feed db → feed_url f ≠ EmptyString) →
  (∀ r, r ∈ tbl_user_feed db → uf_user_id r ≠ user_id) →
  0 < batch_size →
  (∀ url, url ∈ urls → single_latest (tbl_feed_url_map db) url) →
  NoDup (omap (λ url, feed_id <$> resolved_feed db url) urls) →
  ∃ created db',
    create_by_url_s now urls user_id batch_size db
      = (Ok (sorted (λ y x, String.ltb (uf_url y) (uf_url x)) created), db')
    ∧ outcome <$> created = outcome <$> (candidate db user_id <$> urls)
    ∧ tbl_user_feed db' = tbl_user_feed db ++ created.
Proof.
  intros Hwf Hseq Hne Hnone Hbatch Hone Hnd.
  destruct urls as [|url0 urls0] eqn:Hurls.
  { exists [], db. simpl. by rewrite app_nil_r. }
  rewrite <-Hurls in *. clear Hurls.
  assert (∃ created db',
    (url_map <- find_all_target urls ;
     rows <- objects tbl_feed ;
     let found_feeds :=
       filter (λ f, feed_url f ∈ (map_img url_map : gset string)) rows in
     let feed_map := feed_map_of found_feeds in
     rows <- objects tbl_user_feed ;
     let found_user_feeds :=
       filter (λ r, uf_user_id r = user_id
                    ∧ uf_feed_id r ∈ (λ f, Some (feed_id f)) <$> found_feeds)
         rows in
     let user_feed_map := user_feed_map_of found_user_feeds in
     let user_feed_bulk_creates :=
       bulk_candidates url_map feed_map user_feed_map user_id urls in
     created <- bulk_create now user_feed_bulk_creates batch_size ;
     let user_feeds := found_user_feeds ++ created in
     ret (sorted (λ y x, String.ltb (uf_url y) (uf_url x)) user_feeds)) db
      = (Ok (sorted (λ y x, String.ltb (uf_url y) (uf_url x)) created), db')
    ∧ outcome <$> created = outcome <$> (candidate db user_id <$> urls)
    ∧ tbl_user_feed db' = tbl_user_feed db ++ created) as Hmain.
  2: { destruct urls; [|exact Hmain]. destruct Hmain as (c & d & _ & Ho & Ht).
       exists [], db. simpl. by rewrite app_nil_r. }
  destruct (find_all_target_untied urls db Hone) as (url_map & Hrun & Hlook).
  unfold bind at 1. rewrite Hrun.
  unfold bind at 1, objects at 1. cbv zeta.
  unfold bind at 1, objects at 1.
  rewrite (filter_none (λ r, uf_user_id r = user_id ∧ _)); last first.
  { apply Forall_forall. intros r Hr [Hu _]. by apply (Hnone r). }
  change (user_feed_map_of []) with (∅ : gmap Z UserFeed).
  rewrite (bulk_candidates_eq db urls urls) by done.
  destruct (insert_all_ok now (candidate db user_id <$> urls)
              (tbl_user_feed db) (user_feed_seq db)) as (created & Hins & Hout).
  - intros r pk Hr Hpk. unfold seq_wf in Hseq. rewrite Forall_forall in Hseq.
    by apply (Hseq r).
  - apply Forall_fmap, Forall_forall. intros url _. simpl. unfold candidate.
    by destruct (resolved_feed db url).
  - intros x (url & -> & _)%list_elem_of_fmap. apply violates_unique_false.
    intros r fid Hr Hu _ _. apply (Hnone r Hr). rewrite Hu.
    unfold candidate. by destruct (resolved_feed db url).
  - rewrite omap_fmap.
    rewrite (list_omap_ext _ (λ url, feed_id <$> resolved_feed db url)
               urls urls); [done|].
    apply Forall_Forall2_diag, Forall_forall. intros url _.
    unfold candidate. by destruct (resolved_feed db url).
  - exists created, (set_user_feeds db (tbl_user_feed db ++ created)
               (user_feed_seq db + Z.of_nat (length (candidate db user_id <$> urls)))).
    unfold bind, ret.
    rewrite bulk_create_eq by (done || apply candidate_fits).
    rewrite Hins. done.
Qed.

(** C3, as the code behaves: a url that occurs twice in the input is not
    created once.  An unresolved url occurring twice yields two pending
    subscriptions, both stored; a url resolving to a stored feed occurring
    twice makes the bulk insert violate the (user, feed) constraint, where
    create_by_url on that url returns a bound subscription. *)
Lemma create_by_url_s_repeated_url :
  (∃ user_feeds db',
     create_by_url_s 100 [url_b_feed; url_b_feed] 7 500 db_a
       = (Ok user_feeds, db')
     ∧ length (filter (λ r, uf_url r = url_b_feed) user_feeds) = 2%nat
     ∧ length (tbl_user_feed db') = 2%nat)
  ∧ fst (create_by_url_s 100 [url_a_feed; url_a_feed] 7 500 db_a)
    = Raise IntegrityError
  ∧ fst (create_by_url url_a_feed 7 db_a)
    = Ok (new_user_feed 7 (Some feed_a) url_a_feed READY).
Proof.
  split; [|split; by vm_compute].
  eexists _, _. split; [by vm_compute|]. split; by vm_compute.
Qed.

(** C3, amended: for a user without subscriptions, a store whose feeds
    have distinct non-empty urls, and a list of urls of which no two
    entries resolve to the same stored feed and none has several mappings
    that share its greatest dt_created, create_by_url_s returns one
    subscription per entry of the list, with the bound feed, status and url
    that create_by_url gives for that url alone (bound and ready when the
    url resolves to a stored feed, unbound and pending otherwise), and
    stores exactly these; a url that occurs more than once is created once
    per occurrence. *)
Theorem create_by_url_s_agrees (db : DB) (urls : list string)
    (user_id now batch_size : Z) :
  feed_url_wf db → seq_wf db →
  (∀ f, f ∈ tbl_feed db → feed_url f ≠ EmptyString) →
  (∀ r, r ∈ tbl_user_feed db → uf_user_id r ≠ user_id) →
  0 < batch_size →
  (∀ url, url ∈ urls → single_latest (tbl_feed_url_map db) url) →
  NoDup (omap (λ url, feed_id <$> resolved_feed db url) urls) →
  ∃ user_feeds db' singles,
    create_by_url_s now urls user_id batch_size db = (Ok user_feeds, db')
    ∧ Forall2 (λ url single,
         create_by_url url user_id db = (Ok single, db)
         ∧ outcome single =
             match resolved_feed db url with
             | Some f => (Some (feed_id f), READY, url)
             | None => (None, PENDING, url)
             end) urls singles
    ∧ outcome <$> user_feeds ≡ₚ outcome <$> singles
    ∧ tbl_user_feed db' ≡ₚ tbl_user_feed db ++ user_feeds.
Proof.
  intros Hwf Hseq Hne Hnone Hbatch Hone Hnd.
  destruct (create_by_url_s_eq db urls user_id now batch_size)
    as (created & db' & Hrun & Hout & Hrows); [done..|].
  eexists _, db', (candidate db user_id <$> urls).
  split; [exact Hrun|]. split; [|split].
  - apply Forall2_fmap_r, Forall_Forall2_diag, Forall_forall. intros url _.
    split; [by apply candidate_single|].
    unfold candidate. by destruct (resolved_feed db url).
  - by rewrite sorted_perm, Hout.
  - by rewrite Hrows, sorted_perm.
Qed.

Lemma create_by_url_s_agrees_witness :
  ∃ user_feeds db' singles,
    create_by_url_s 100 [url_a_feed; url_b_feed; url_b_feed] 7 500 db_a
      = (Ok user_feeds, db')
    ∧ Forall2 (λ url single,
         create_by_url url 7 db_a = (Ok single, db_a)
         ∧ outcome single =
             match resolved_feed db_a url with
             | Some f => (Some (feed_id f), READY, url)
             | None => (None, PENDING, url)
             end) [url_a_feed; url_b_feed; url_b_feed] singles
    ∧ outcome <$> user_feeds ≡ₚ outcome <$> singles
    ∧ tbl_user_feed db' ≡ₚ tbl_user_feed db_a ++ user_feeds.
Proof.
  apply (create_by_url_s_agrees db_a [url_a_feed; url_b_feed; url_b_feed]
           7 100 500).
  - unfold feed_url_wf. simpl. apply NoDup_singleton.
  - unfold seq_wf. simpl. constructor.
  - simpl. intros f ->%list_elem_of_singleton. discriminate.
  - simpl. intros r Hr. by apply elem_of_nil in Hr.
  - lia.
  - simpl. intros url _ r r' Hr Hr' _ _ _ _.
    apply list_elem_of_singleton in Hr, Hr'. congruence.
  - vm_compute. apply NoDup_singleton.
Defined.

(** On a mapping whose target is the empty string the two paths part:
    create_by_url takes the empty target for no target and returns a
    pending subscription, the bulk loop looks the empty url up and binds
    the feed stored under it. *)
Example empty_target_paths_differ :
  fst (create_by_url url_b_feed 7 db_blank)
    = Ok (new_user_feed 7 None url_b_feed PENDING)
  ∧ outcome <$> default [] (match fst (create_by_url_s 100 [url_b_feed] 7 500
                                        db_blank) with
                            | Ok l => Some l
                            | Raise _ => None
                            end)
    = [(Some 2, READY, url_b_feed)].
Proof. split; by vm_compute. Qed.

(** ** SubscriptionStore: lookup and deletion by primary key *)

Lemma filter_all {A} (P : A → Prop) `{∀ a, Decision (P a)} (l : list A) :
  Forall P l → filter P l = l.
Proof.
  induction 1 as [|x l Hx _ IH]; [done|]. by rewrite filter_cons_True, IH.
Qed.

Lemma get_by_pk_cases (pk : Z) (user_id : option Z) (detail : bool) (db : DB) :
  pk_wf (tbl_user_feed db) →
  let scoped := λ r : UserFeed, ∀ u, user_id = Some u → uf_user_id r = u in
  (∃ r, get_by_pk pk user_id detail db = inr r
        ∧ r ∈ tbl_user_feed db ∧ uf_id r = Some pk ∧ scoped r)
  ∨ (get_by_pk pk user_id detail db = inl DoesNotExist
     ∧ ∀ r, r ∈ tbl_user_feed db → uf_id r = Some pk → ¬ scoped r).
Proof.
  intros [_ Hnd] scoped. unfold get_by_pk.
  set (q := match user_id with
            | Some u => filter (λ r, uf_user_id r = u) (tbl_user_feed db)
            | None => tbl_user_feed db
            end).
  assert (∀ r, r ∈ q ↔ r ∈ tbl_user_feed db ∧ scoped r) as Hq.
  { intros r. unfold q, scoped. destruct user_id as [u|].
    - rewrite list_elem_of_filter. split.
      + intros [? ?]. split; [done|]. by intros ? [= <-].
      + intros [? Hs]. split; [by apply Hs|done].
    - split; [by intros ?|by intros [? _]]. }
  assert (NoDup (uf_id <$> q)) as Hndq.
  { unfold q. destruct user_id; [|done].
    apply (NoDup_fmap_2_strong uf_id).
    - intros x y [_ Hx]%list_elem_of_filter [_ Hy]%list_elem_of_filter.
      by apply (unique_key_inj uf_id (tbl_user_feed db)).
    - apply NoDup_filter. by eapply NoDup_fmap_1. }
  destruct (decide (Exists (λ r, uf_id r = Some pk) q)) as [Hex|Hno].
  - left. apply Exists_exists in Hex as (r & Hr & Hpk). exists r.
    rewrite (filter_ext_in _ (λ y, uf_id y = uf_id r)) by (intros; by rewrite Hpk).
    rewrite filter_unique_key by done. apply Hq in Hr as [? ?]. done.
  - right. rewrite <-Forall_Exists_neg in Hno. rewrite filter_none by done.
    split; [done|]. intros r Hr Hpk Hs. rewrite Forall_forall in Hno.
    apply (Hno r); [|done]. by apply Hq.
Qed.

(** X1: get_by_pk returns the stored subscription with the primary key, within
    the user's own subscriptions when a user is given; in every other case
    it raises DoesNotExist, also when the key belongs to another user. *)
Theorem get_by_pk_scoped (pk : Z) (user_id : option Z) (detail : bool)
    (db : DB) :
  pk_wf (tbl_user_feed db) →
  match get_by_pk pk user_id detail db with
  | inr r =>
      r ∈ tbl_user_feed db ∧ uf_id r = Some pk
      ∧ ∀ u, user_id = Some u → uf_user_id r = u
  | inl e =>
      e = DoesNotExist
      ∧ ∀ r, r ∈ tbl_user_feed db → uf_id r = Some pk →
             ∃ u, user_id = Some u ∧ uf_user_id r ≠ u
  end.
Proof.
  intros Hpk.
  destruct (get_by_pk_cases pk user_id detail db Hpk)
    as [(r & -> & ? & ? & ?)|[-> Hno]]; [done|].
  split; [done|]. intros r Hr Hid.
  destruct user_id as [u|].
  - exists u. split; [done|]. intros Hu. apply (Hno r Hr Hid).
    by intros ? [= <-].
  - exfalso. apply (Hno r Hr Hid). by intros ? [=].
Qed.

Lemma get_by_pk_scoped_witness :
  match get_by_pk 2 (Some 7) false db_subs with
  | inr r =>
      r ∈ tbl_user_feed db_subs ∧ uf_id r = Some 2
      ∧ ∀ u, Some 7 = Some u → uf_user_id r = u
  | inl e =>
      e = DoesNotExist
      ∧ ∀ r, r ∈ tbl_user_feed db_subs → uf_id r = Some 2 →
             ∃ u, Some 7 = Some u ∧ uf_user_id r ≠ u
  end.
Proof.
  apply (get_by_pk_scoped 2 (Some 7) false db_subs).
  split; [simpl; repeat constructor; by eexists|simpl; compute_done].
Defined.

(** X2: delete_by_pk removes the subscription that get_by_pk finds and nothing
    else: the other subscriptions keep their order, feeds and mappings stay,
    the key can no longer be looked up and every other key is looked up as
    before; when get_by_pk raises, delete_by_pk raises the same and the
    store is unchanged. *)
Theorem delete_by_pk_removes (pk : Z) (user_id : option Z) (db : DB) :
  pk_wf (tbl_user_feed db) →
  match get_by_pk pk user_id false db with
  | inr r =>
      ∃ db', delete_by_pk pk user_id db = (inr (), db')
        ∧ tbl_user_feed db' = filter (λ x, x ≠ r) (tbl_user_feed db)
        ∧ tbl_feed db' = tbl_feed db
        ∧ tbl_feed_url_map db' = tbl_feed_url_map db
        ∧ (∀ u d, get_by_pk pk u d db' = inl DoesNotExist)
        ∧ (∀ pk' u d, pk' ≠ pk →
             get_by_pk pk' u d db' = get_by_pk pk' u d db)
  | inl e => delete_by_pk pk user_id db = (inl e, db)
  end.
Proof.
  intros Hpk. unfold delete_by_pk.
  destruct (get_by_pk_cases pk user_id false db Hpk)
    as [(r & Hget & Hr & Hid & _)|[-> _]]; [|done].
  rewrite Hget. eexists. split; [done|]. simpl.
  assert (filter (λ x, uf_id x ≠ uf_id r) (tbl_user_feed db)
          = filter (λ x, x ≠ r) (tbl_user_feed db)) as Hrows.
  { apply filter_ext_in. intros x Hx. destruct Hpk as [_ Hnd]. split.
    - intros Hne ->. done.
    - intros Hne Heq. apply Hne.
      by apply (unique_key_inj uf_id (tbl_user_feed db)). }
  split; [done|]. split; [done|]. split; [done|].
  assert (∀ pk' (u : option Z),
    filter (λ x, uf_id x = Some pk')
      match u with
      | Some u' =>
          filter (λ x, uf_user_id x = u')
            (filter (λ x, uf_id x ≠ uf_id r) (tbl_user_feed db))
      | None => filter (λ x, uf_id x ≠ uf_id r) (tbl_user_feed db)
      end
    = filter (λ x, uf_id x ≠ uf_id r)
        (filter (λ x, uf_id x = Some pk')
           match u with
           | Some u' => filter (λ x, uf_user_id x = u') (tbl_user_feed db)
           | None => tbl_user_feed db
           end)) as Hcomm.
  { intros pk' [u'|]; rewrite !list_filter_filter; apply filter_ext_in;
      intros x _; tauto. }
  split.
  - intros u d. unfold get_by_pk. simpl. rewrite Hcomm.
    rewrite filter_none; [done|]. apply Forall_forall.
    intros x [Hx _]%list_elem_of_filter. congruence.
  - intros pk' u d Hne. unfold get_by_pk. simpl. rewrite Hcomm.
    rewrite filter_all; [done|]. apply Forall_forall.
    intros x [Hx _]%list_elem_of_filter. rewrite Hx, Hid. congruence.
Qed.

Lemma delete_by_pk_removes_witness :
  match get_by_pk 2 (Some 7) false db_subs with
  | inr r =>
      ∃ db', delete_by_pk 2 (Some 7) db_subs = (inr (), db')
        ∧ tbl_user_feed db' = filter (λ x, x ≠ r) (tbl_user_feed db_subs)
        ∧ tbl_feed db' = tbl_feed db_subs
        ∧ tbl_feed_url_map db' = tbl_feed_url_map db_subs
        ∧ (∀ u d, get_by_pk 2 u d db' = inl DoesNotExist)
        ∧ (∀ pk' u d, pk' ≠ 2 →
             get_by_pk pk' u d db' = get_by_pk pk' u d db_subs)
  | inl e => delete_by_pk 2 (Some 7) db_subs = (inl e, db_subs)
  end.
Proof.
  apply (delete_by_pk_removes 2 (Some 7) db_subs).
  split; [simpl; repeat constructor; by eexists|simpl; compute_done].
Defined.

(** ** UrlResolver: the batch *)

(** X4: find_all_target depends on the batch only as a set: the order of the
    sources and their repetitions do not matter; its result has an entry
    exactly for the sources of the batch that have a mapping. *)
Theorem find_all_target_batch_as_set (db : DB) (batch1 batch2 : list string) :
  (∀ s, s ∈ batch1 ↔ s ∈ batch2) →
  ∃ url_map,
    find_all_target batch1 db = (Ok url_map, db)
    ∧ find_all_target batch2 db = (Ok url_map, db)
    ∧ ∀ s, is_Some (url_map !! s) ↔
           s ∈ batch1 ∧ ∃ r, r ∈ tbl_feed_url_map db ∧ fum_source r = s.
Proof.
  intros Hsame.
  destruct (find_all_target_eq batch1 db) as (m1 & Hrun1 & Hlook1).
  destruct (find_all_target_eq batch2 db) as (m2 & Hrun2 & Hlook2).
  assert (m2 = m1) as ->.
  { apply map_eq. intros s. rewrite Hlook1, Hlook2.
    destruct (decide (s ∈ batch1)) as [H1|H1], (decide (s ∈ batch2)) as [H2|H2];
      try done; exfalso; apply Hsame in H1 || apply Hsame in H2; done. }
  exists m1. split; [done|]. split; [done|]. intros s. rewrite Hlook1.
  pose proof (distinct_latest_spec (tbl_feed_url_map db) s) as Hl.
  destruct (decide (s ∈ batch1)) as [Hin|Hin].
  - destruct (distinct_latest _ s) as [r|]; simpl.
    + destruct Hl as (Hr & Hs & _). split; [|by eexists].
      intros _. split; [done|]. by exists r.
    + split; [by intros [? ?]|]. intros [_ (r & Hr & Hs)]. by destruct (Hl r Hr).
  - split; [by intros [? ?]|]. by intros [? _].
Qed.

Lemma find_all_target_batch_as_set_witness :
  ∃ url_map,
    find_all_target [url_a_feed; url_b_feed] db_a = (Ok url_map, db_a)
    ∧ find_all_target [url_b_feed; url_a_feed; url_b_feed] db_a
      = (Ok url_map, db_a)
    ∧ ∀ s, is_Some (url_map !! s) ↔
           s ∈ [url_a_feed; url_b_feed]
           ∧ ∃ r, r ∈ tbl_feed_url_map db_a ∧ fum_source r = s.
Proof.
  apply (find_all_target_batch_as_set db_a [url_a_feed; url_b_feed]
           [url_b_feed; url_a_feed; url_b_feed]).
  intros s. rewrite !elem_of_cons, !elem_of_nil. tauto.
Defined.

(** ** SubscriptionStore: the incremental query, in full *)

Lemma collect_updates_eq (hints : gmap Z Z) (q : list UserFeed) :
  collect_updates hints q =
    if decide (Exists (hinted_null hints) q) then Raise TypeError
    else Ok (uf_id <$> filter (changed_since hints) q).
Proof.
  induction q as [|r q IH]; [done|]. simpl.
  rewrite IH, filter_cons. clear IH.
  destruct (uf_id r ≫= _) as [hinted|] eqn:E.
  - destruct (uf_dt_updated r) as [d|] eqn:Hd; simpl.
    + destruct (decide (Exists _ q)) as [Hq|Hq]; simpl.
      * rewrite decide_True; [done|]. by right.
      * rewrite decide_False; last first.
        { intros [[? _]|?]%Exists_cons; [congruence|done]. }
        case_bool_decide.
        -- rewrite decide_True; [done|]. unfold changed_since. by rewrite E, Hd.
        -- rewrite decide_False; [done|]. unfold changed_since. by rewrite E, Hd.
    + rewrite decide_True; [done|]. left. split; [done|]. by rewrite E.
  - destruct (decide (Exists _ q)) as [Hq|Hq]; simpl.
    + rewrite decide_True; [done|]. by right.
    + rewrite decide_False; last first.
      { intros [[_ [? ?]]|?]%Exists_cons; [congruence|done]. }
      rewrite decide_True; [done|]. unfold changed_since. by rewrite E.
Qed.

Lemma pk_lt_irrefl a : pk_lt a a = false.
Proof. destruct a; simpl; [|done]. apply bool_decide_eq_false. lia. Qed.

Lemma pk_lt_asym a b : pk_lt a b = true → pk_lt b a = false.
Proof.
  destruct a, b; simpl; try done.
  rewrite bool_decide_eq_true, bool_decide_eq_false. lia.
Qed.

Lemma pk_lt_negtrans a b c :
  pk_lt a b = false → pk_lt b c = false → pk_lt a c = false.
Proof.
  destruct a, b, c; simpl; try done.
  rewrite !bool_decide_eq_false. lia.
Qed.

Lemma pk_lt_false_antisym a b :
  pk_lt a b = false → pk_lt b a = false → a = b.
Proof.
  destruct a, b; simpl; try done.
  rewrite !bool_decide_eq_false. intros. f_equal. lia.
Qed.

Lemma key_desc_lt_false y x :
  key_desc_lt y x = false ↔
    pk_lt (uf_dt_updated x) (uf_dt_updated y) = false
    ∧ (uf_dt_updated x = uf_dt_updated y → pk_lt (uf_id x) (uf_id y) = false).
Proof.
  unfold key_desc_lt. rewrite orb_false_iff, andb_false_iff.
  rewrite bool_decide_eq_false. split.
  - intros [? [?|?]]; by split.
  - intros [? Hid]. split; [done|].
    destruct (decide (uf_dt_updated x = uf_dt_updated y)); [right|by left].
    by apply Hid.
Qed.

Lemma key_desc_lt_asym a b :
  key_desc_lt a b = true → key_desc_lt b a = false.
Proof.
  unfold key_desc_lt at 1. intros H. apply key_desc_lt_false.
  apply orb_true_iff in H as [H|[Hd Hi]%andb_true_iff].
  - split; [by apply pk_lt_asym|]. intros Heq. rewrite Heq in H.
    by rewrite pk_lt_irrefl in H.
  - apply bool_decide_eq_true in Hd. rewrite Hd. split.
    + apply pk_lt_irrefl.
    + intros _. by apply pk_lt_asym.
Qed.

Lemma key_desc_lt_negtrans a b c :
  key_desc_lt a b = false → key_desc_lt b c = false →
  key_desc_lt a c = false.
Proof.
  rewrite !key_desc_lt_false. intros [Hab Hab'] [Hbc Hbc']. split.
  - by eapply pk_lt_negtrans.
  - intros Heq. rewrite Heq in Hbc.
    assert (uf_dt_updated b = uf_dt_updated a) as Hba
      by by apply pk_lt_false_antisym.
    eapply pk_lt_negtrans; [apply Hbc'|apply Hab']; congruence.
Qed.

Lemma py_tuple_lt_uniform (x y : UserFeed) :
  (uf_dt_updated x = None ↔ uf_dt_updated y = None) →
  is_Some (uf_id x) → is_Some (uf_id y) →
  py_tuple_lt (changed_key x) (changed_key y) = Ok (key_desc_lt y x).
Proof.
  intros Hnull [ix Hix] [iy Hiy].
  unfold py_tuple_lt, changed_key, key_desc_lt. simpl.
  rewrite Hix, Hiy.
  destruct (uf_dt_updated x) as [dx|], (uf_dt_updated y) as [dy|];
    try (exfalso; by (destruct Hnull as [H1 H2]; (specialize (H1 eq_refl) || specialize (H2 eq_refl)))).
  - simpl. destruct (decide (dx = dy)) as [->|Hd].
    + rewrite !(bool_decide_eq_true_2 (Some dy = Some dy)) by done.
      rewrite (bool_decide_eq_false_2 (dy < dy)) by lia. simpl.
      destruct (decide (ix = iy)) as [->|Hi].
      * rewrite (bool_decide_eq_true_2 (Some iy = Some iy)) by done.
        by rewrite (bool_decide_eq_false_2 (iy < iy)) by lia.
      * by rewrite (bool_decide_eq_false_2 (Some ix = Some iy)) by congruence.
    + rewrite !(bool_decide_eq_false_2 (Some dx = Some dy)) by congruence.
      simpl. by rewrite orb_false_r.
  - simpl.
    destruct (decide (ix = iy)) as [->|Hi].
    + rewrite (bool_decide_eq_true_2 (Some iy = Some iy)) by done.
      by rewrite (bool_decide_eq_false_2 (iy < iy)) by lia.
    + by rewrite (bool_decide_eq_false_2 (Some ix = Some iy)) by congruence.
Qed.

Lemma py_tuple_lt_mixed (x y : UserFeed) :
  ¬ (uf_dt_updated x = None ↔ uf_dt_updated y = None) →
  py_tuple_lt (changed_key x) (changed_key y) = Raise TypeError.
Proof.
  intros Hmix. unfold py_tuple_lt, changed_key. simpl.
  destruct (uf_dt_updated x) as [dx|], (uf_dt_updated y) as [dy|]; simpl.
  - exfalso. apply Hmix. split; congruence.
  - first [done|by rewrite bool_decide_eq_false_2].
  - first [done|by rewrite bool_decide_eq_false_2].
  - exfalso. by apply Hmix.
Qed.

Lemma insert_sorted_r_perm {A} (ltr : A → A → Res bool) (x : A)
    (k s : list A) :
  insert_sorted_r ltr x k = Ok s → s ≡ₚ x :: k.
Proof.
  revert s. induction k as [|y k IH]; intros s; simpl.
  { by intros [= <-]. }
  destruct (ltr y x) as [[|]|e]; simpl; [|by intros [= <-]|done].
  destruct (insert_sorted_r ltr x k) as [s'|e]; simpl; [|done].
  intros [= <-]. rewrite (IH s' eq_refl). apply Permutation_swap.
Qed.

Lemma sorted_r_perm {A} (ltr : A → A → Res bool) (l s : list A) :
  sorted_r ltr l = Ok s → s ≡ₚ l.
Proof.
  revert s. induction l as [|x l IH]; intros s; simpl.
  { by intros [= <-]. }
  destruct (sorted_r ltr l) as [s'|e]; simpl; [|done].
  intros Hs%insert_sorted_r_perm. by rewrite Hs, (IH s' eq_refl).
Qed.

(** Subscriptions that all have a dt_updated, or all have none, are sorted
    without an error. *)
Lemma sorted_r_uniform (l : list UserFeed) :
  ¬ mixed_dt l → Forall (λ r, is_Some (uf_id r)) l →
  sorted_r changed_ltr l = Ok (sorted key_desc_lt l).
Proof.
  intros Hun Hid. apply sorted_r_pure. intros x y Hx Hy.
  rewrite Forall_forall in Hid. unfold changed_ltr.
  apply py_tuple_lt_uniform; [|by apply Hid..].
  split; intros Hnone.
  - destruct (uf_dt_updated y) as [d|] eqn:Hd; [|done].
    exfalso. apply Hun. split; apply Exists_exists.
    + by exists x. + exists y. split; [done|]. by rewrite Hd.
  - destruct (uf_dt_updated x) as [d|] eqn:Hd; [|done].
    exfalso. apply Hun. split; apply Exists_exists.
    + by exists y. + exists x. split; [done|]. by rewrite Hd.
Qed.

Lemma insert_sorted_r_type_error (x : UserFeed) (k : list UserFeed) e :
  insert_sorted_r changed_ltr x k = Raise e → e = TypeError.
Proof.
  induction k as [|y k IH]; simpl; [done|].
  destruct (changed_ltr y x) as [[|]|e'] eqn:E; simpl.
  - destruct (insert_sorted_r changed_ltr x k); simpl; [done|].
    intros [= <-]. by apply IH.
  - done.
  - intros [= <-]. unfold changed_ltr, py_tuple_lt, py_lt in E.
    repeat case_match; by simplify_eq.
Qed.

Lemma sorted_r_type_error (l : list UserFeed) e :
  sorted_r changed_ltr l = Raise e → e = TypeError.
Proof.
  induction l as [|x l IH]; simpl; [done|].
  destruct (sorted_r changed_ltr l) as [s|e']; simpl.
  - apply insert_sorted_r_type_error.
  - intros [= <-]. by apply IH.
Qed.

(** A sort over subscriptions of which some have a dt_updated and some
    have none raises. *)
Lemma sorted_r_mixed (l : list UserFeed) :
  mixed_dt l → sorted_r changed_ltr l = Raise TypeError.
Proof.
  induction l as [|x l IH]; intros Hmix.
  { destruct Hmix as [?%Exists_nil _]. done. }
  simpl. destruct (sorted_r changed_ltr l) as [s|e] eqn:Hs; simpl; last first.
  { f_equal. by eapply sorted_r_type_error. }
  assert (¬ mixed_dt l) as Hun.
  { intros Hl. specialize (IH Hl). congruence. }
  apply sorted_r_perm in Hs.
  assert (∃ y, y ∈ l
     ∧ ¬ (uf_dt_updated x = None ↔ uf_dt_updated y = None)) as (y & Hy & Hxy).
  { destruct Hmix as [Hnull Hval].
    apply Exists_cons in Hnull as [Hnull|Hnull];
      apply Exists_cons in Hval as [Hval|Hval].
    - rewrite Hnull in Hval. by destruct Hval.
    - apply Exists_exists in Hval as (y & Hy & [d Hd]). exists y.
      split; [done|]. rewrite Hd. intros [H1 _]. by specialize (H1 Hnull).
    - apply Exists_exists in Hnull as (y & Hy & Hd). exists y.
      split; [done|]. destruct Hval as [d Hx]. rewrite Hx.
      intros [_ H2]. by specialize (H2 Hd).
    - exfalso. by apply Hun. }
  assert (∀ z, z ∈ l →
    ¬ (uf_dt_updated x = None ↔ uf_dt_updated z = None)) as Hall.
  { intros z Hz Hxz. apply Hun.
    destruct (uf_dt_updated y) as [dy|] eqn:Hdy,
             (uf_dt_updated z) as [dz|] eqn:Hdz.
    - exfalso. apply Hxy. rewrite Hxz. done.
    - split; apply Exists_exists; [by exists z|]. exists y. by rewrite Hdy.
    - split; apply Exists_exists; [by exists y|]. exists z. by rewrite Hdz.
    - exfalso. apply Hxy. rewrite Hxz. done. }
  destruct s as [|z s].
  { apply Permutation_nil_l in Hs. subst l. by apply elem_of_nil in Hy. }
  simpl. unfold changed_ltr at 1.
  rewrite py_tuple_lt_mixed; [done|].
  apply Hall. rewrite <-Hs. by left.
Qed.

(** query_by_user with hints, in every case. *)
Lemma query_by_user_eq (db : DB) (user_id : Z) (hint : Hint)
    (hints' : list Hint) (detail show_pending : bool) :
  pk_wf (tbl_user_feed db) →
  query_by_user user_id (Some (hint :: hints')) detail show_pending db =
    if decide (Exists (hinted_null (hints_dict (hint :: hints')))
                 (filter (visible user_id show_pending) (tbl_user_feed db)))
    then (Raise TypeError, db)
    else if decide (mixed_dt
                      (filter (λ r, visible user_id show_pending r
                                    ∧ changed_since
                                        (hints_dict (hint :: hints')) r)
                         (tbl_user_feed db)))
    then (Raise TypeError, db)
    else (Ok (PyTuple
                (length (filter (visible user_id show_pending)
                           (tbl_user_feed db)))
                (sorted key_desc_lt
                   (filter (λ r, visible user_id show_pending r
                                 ∧ changed_since
                                     (hints_dict (hint :: hints')) r)
                      (tbl_user_feed db)))), db).
Proof.
  intros Hpk. unfold query_by_user, bind at 1, objects at 1.
  rewrite filter_visible. unfold bind at 1, lift at 1.
  rewrite collect_updates_eq.
  destruct (decide (Exists _ _)) as [Hbad|Hgood]; [done|].
  unfold bind, objects, lift, ret. cbv zeta beta iota.
  rewrite (filter_updates user_id show_pending
             (hints_dict (hint :: hints')) _ Hpk).
  fold changed_ltr.
  destruct (decide (mixed_dt _)) as [Hmix|Hun].
  - by rewrite sorted_r_mixed.
  - rewrite sorted_r_uniform; [done|done|].
    destruct Hpk as [Hsome _]. apply Forall_forall.
    intros r [_ Hr]%list_elem_of_filter. rewrite Forall_forall in Hsome.
    by apply Hsome.
Qed.

Lemma StronglySorted_lookup {A} (R : relation A) (l : list A) i j y x :
  StronglySorted R l → (i < j)%nat →
  l !! i = Some y → l !! j = Some x → R y x.
Proof.
  intros Hl. revert i j. induction Hl as [|z l Hl IH Hz]; intros i j Hij Hi Hj.
  { done. }
  destruct j as [|j]; [lia|]. destruct i as [|i]; simpl in *.
  - simplify_eq. rewrite Forall_forall in Hz. apply Hz.
    by eapply list_elem_of_lookup_2.
  - apply (IH i j); [lia|done..].
Qed.

Lemma length_filter_and {A} (P Q : A → Prop) `{∀ a, Decision (P a)}
    `{∀ a, Decision (Q a)} (l : list A) :
  (length (filter (λ x, P x ∧ Q x) l) ≤ length (filter P l))%nat.
Proof.
  induction l as [|x l IH]; [done|]. rewrite !filter_cons.
  destruct (decide (P x ∧ Q x)) as [[? ?]|Hn], (decide (P x)); simpl;
    try done; lia.
Qed.

(** X5: query_by_user with hints raises TypeError exactly when a visible
    subscription whose id a hint of the list names has no dt_updated, or
    when the changed subscriptions (those whose id no hint names or whose
    dt_updated is greater than that of the last hint naming the id) are
    some with and some without a dt_updated; otherwise it returns the total
    of the visible subscriptions and the changed ones, never more of them
    than the total.  The store is unchanged either way. *)
Theorem query_by_user_outcome (db : DB) (user_id : Z) (hint : Hint)
    (hints' : list Hint) (detail show_pending : bool) :
  pk_wf (tbl_user_feed db) →
  let hints := hint :: hints' in
  let listed := filter (visible user_id show_pending) (tbl_user_feed db) in
  let updated :=
    filter (λ r, visible user_id show_pending r ∧ changed_against hints r)
      (tbl_user_feed db) in
  let unordered := Exists (named_null hints) listed ∨ mixed_dt updated in
  (unordered
   ∧ query_by_user user_id (Some (hint :: hints')) detail show_pending db
     = (Raise TypeError, db))
  ∨ (¬ unordered
     ∧ ∃ changed,
         query_by_user user_id (Some (hint :: hints')) detail show_pending db
           = (Ok (PyTuple (length listed) changed), db)
         ∧ changed ≡ₚ updated
         ∧ (length changed ≤ length listed)%nat).
Proof.
  intros Hpk hints listed updated unordered.
  rewrite query_by_user_eq by done.
  assert (filter (λ r, visible user_id show_pending r
                       ∧ changed_since (hints_dict (hint :: hints')) r)
            (tbl_user_feed db) = updated) as ->.
  { apply filter_ext_in. intros r _. by rewrite changed_since_against. }
  fold listed.
  assert (Exists (hinted_null (hints_dict (hint :: hints'))) listed
          ↔ Exists (named_null hints) listed) as Hex.
  { rewrite !Exists_exists. by setoid_rewrite hinted_null_named. }
  destruct (decide (Exists _ listed)) as [Hnull|Hnull].
  { left. split; [left; by apply Hex|done]. }
  destruct (decide (mixed_dt updated)) as [Hmix|Hmix].
  { left. split; [by right|done]. }
  right. split; [intros [?%Hex|?]; done|]. eexists. split; [done|].
  split; [apply sorted_perm|]. rewrite sorted_perm.
  apply length_filter_and.
Qed.

Lemma query_by_user_outcome_witness :
  let hints := [mkHint 1 5] in
  let listed := filter (visible 7 true) (tbl_user_feed db_null) in
  let updated :=
    filter (λ r, visible 7 true r ∧ changed_against hints r)
      (tbl_user_feed db_null) in
  let unordered := Exists (named_null hints) listed ∨ mixed_dt updated in
  (unordered
   ∧ query_by_user 7 (Some [mkHint 1 5]) false true db_null
     = (Raise TypeError, db_null))
  ∨ (¬ unordered
     ∧ ∃ changed,
         query_by_user 7 (Some [mkHint 1 5]) false true db_null
           = (Ok (PyTuple (length listed) changed), db_null)
         ∧ changed ≡ₚ updated
         ∧ (length changed ≤ length listed)%nat).
Proof.
  apply (query_by_user_outcome db_null 7 (mkHint 1 5) [] false true).
  split; [simpl; repeat constructor; by eexists|simpl; compute_done].
Defined.

(** The two ways the final sort raises, and the way it does not. *)
Example query_by_user_outcome_scenarios :
  fst (query_by_user 7 (Some [mkHint 4 1]) false true db_null)
    = Raise TypeError
  ∧ fst (query_by_user 7 (Some [mkHint 9 1]) false true db_null)
    = Raise TypeError
  ∧ fst (query_by_user 7 (Some [mkHint 1 5]) false true db_null)
    = Ok (PyTuple 2 [sub_4]).
Proof. split; [|split]; by vm_compute. Qed.

(** X6: Over subscriptions with a recorded dt_updated, the changed list of
    query_by_user is ordered by (dt_updated, id), greatest first: of two
    entries the earlier one has the later dt_updated, or the same
    dt_updated and the greater id. *)
Theorem query_by_user_order (db : DB) (user_id : Z) (hint : Hint)
    (hints' : list Hint) (detail show_pending : bool) :
  pk_wf (tbl_user_feed db) →
  (∀ r, r ∈ tbl_user_feed db → uf_user_id r = user_id →
        is_Some (uf_dt_updated r)) →
  ∃ total changed,
    query_by_user user_id (Some (hint :: hints')) detail show_pending db
      = (Ok (PyTuple total changed), db)
    ∧ ∀ i j y x, (i < j)%nat → changed !! i = Some y → changed !! j = Some x →
        ∃ dy dx iy ix,
          uf_dt_updated y = Some dy ∧ uf_dt_updated x = Some dx
          ∧ uf_id y = Some iy ∧ uf_id x = Some ix
          ∧ (dx < dy ∨ (dx = dy ∧ ix < iy)).
Proof.
  intros Hpk Hrec. rewrite query_by_user_eq by done.
  set (hints := hints_dict (hint :: hints')).
  set (updated := filter (λ r, visible user_id show_pending r
                               ∧ changed_since hints r) (tbl_user_feed db)).
  assert (∀ r, r ∈ updated →
    r ∈ tbl_user_feed db ∧ is_Some (uf_dt_updated r) ∧ is_Some (uf_id r))
    as Hupd.
  { intros r [[[Hu _] _] Hr]%list_elem_of_filter. split; [done|].
    split; [by apply Hrec|]. destruct Hpk as [Hsome _].
    rewrite Forall_forall in Hsome. by apply Hsome. }
  rewrite decide_False; last first.
  { intros (r & [[Hu _] Hr]%list_elem_of_filter & Hnone & _)%Exists_exists.
    destruct (Hrec r Hr Hu) as [d Hd]. congruence. }
  rewrite decide_False; last first.
  { intros [(r & Hr & Hnone)%Exists_exists _].
    destruct (Hupd r Hr) as (_ & [d Hd] & _). congruence. }
  eexists _, _. split; [done|]. intros i j y x Hij Hi Hj.
  pose proof (sorted_strongly key_desc_lt key_desc_lt_asym
                key_desc_lt_negtrans updated) as Hsorted.
  pose proof (StronglySorted_lookup _ _ i j y x Hsorted Hij Hi Hj) as Hyx.
  unfold keeps in Hyx. apply key_desc_lt_false in Hyx as [Hdt Hid].
  assert (y ∈ updated ∧ x ∈ updated) as [Hy Hx].
  { split; apply (elem_of_sorted key_desc_lt);
      by eapply list_elem_of_lookup_2. }
  destruct (Hupd y Hy) as (Hyr & [dy Hdy] & [iy Hiy]).
  destruct (Hupd x Hx) as (Hxr & [dx Hdx] & [ix Hix]).
  exists dy, dx, iy, ix. repeat split; [done..|].
  assert (ix ≠ iy) as Hne.
  { intros ->. destruct Hpk as [_ Hnd].
    assert (x = y) as ->.
    { apply (unique_key_inj uf_id (tbl_user_feed db)); [done..|congruence]. }
    assert (NoDup (sorted key_desc_lt updated)) as Hnds.
    { rewrite sorted_perm. apply NoDup_filter. by eapply NoDup_fmap_1. }
    pose proof (NoDup_lookup _ i j y Hnds Hi Hj). lia. }
  rewrite Hdy, Hdx in Hdt. rewrite Hdy, Hdx, Hiy, Hix in Hid. simpl in *.
  apply bool_decide_eq_false in Hdt.
  destruct (decide (dx = dy)) as [->|Hd]; [|lia].
  specialize (Hid eq_refl). apply bool_decide_eq_false in Hid. lia.
Qed.

Lemma query_by_user_order_witness :
  ∃ total changed,
    query_by_user 7 (Some [mkHint 1 4]) false true db_subs
      = (Ok (PyTuple total changed), db_subs)
    ∧ ∀ i j y x, (i < j)%nat → changed !! i = Some y → changed !! j = Some x →
        ∃ dy dx iy ix,
          uf_dt_updated y = Some dy ∧ uf_dt_updated x = Some dx
          ∧ uf_id y = Some iy ∧ uf_id x = Some ix
          ∧ (dx < dy ∨ (dx = dy ∧ ix < iy)).
Proof.
  apply (query_by_user_order db_subs 7 (mkHint 1 4) [] false true).
  - split; [simpl; repeat constructor; by eexists|simpl; compute_done].
  - simpl. intros r Hr _.
    repeat (apply elem_of_cons in Hr as [->|Hr]; [by eexists|]).
    by apply elem_of_nil in Hr.
Defined.

(** X7: When the hints name every visible subscription of the user at a time
    that is not before its dt_updated, the changed list is empty and the
    total counts the visible subscriptions. *)
Theorem query_by_user_in_sync (db : DB) (user_id : Z) (hint : Hint)
    (hints' : list Hint) (detail show_pending : bool) :
  pk_wf (tbl_user_feed db) →
  (∀ r, r ∈ tbl_user_feed db → visible user_id show_pending r →
        ∃ i d hinted,
          uf_id r = Some i ∧ uf_dt_updated r = Some d
          ∧ hints_dict (hint :: hints') !! i = Some hinted ∧ d ≤ hinted) →
  query_by_user user_id (Some (hint :: hints')) detail show_pending db
    = (Ok (PyTuple
             (length (filter (visible user_id show_pending)
                        (tbl_user_feed db))) []), db).
Proof.
  intros Hpk Hsync. rewrite query_by_user_eq by done.
  rewrite (filter_none (λ r, _ ∧ changed_since _ r)); last first.
  { apply Forall_forall. intros r Hr [Hv Hc].
    destruct (Hsync r Hr Hv) as (i & d & hinted & Hi & Hd & Hh & Hle).
    unfold changed_since in Hc. rewrite Hi in Hc. simpl in Hc.
    rewrite Hh, Hd in Hc. simpl in Hc. lia. }
  rewrite decide_False; last first.
  { intros (r & [Hv Hr]%list_elem_of_filter & Hnone & _)%Exists_exists.
    destruct (Hsync r Hr Hv) as (i & d & hinted & _ & Hd & _). congruence. }
  rewrite decide_False; [done|]. by intros [?%Exists_nil _].
Qed.

Lemma query_by_user_in_sync_witness :
  query_by_user 7 (Some [mkHint 1 5; mkHint 2 9]) false false db_subs
  = (Ok (PyTuple
           (length (filter (visible 7 false) (tbl_user_feed db_subs))) []),
     db_subs).
Proof.
  apply (query_by_user_in_sync db_subs 7 (mkHint 1 5) [mkHint 2 9] false false).
  - split; [simpl; repeat constructor; by eexists|simpl; compute_done].
  - simpl. intros r Hr [_ Hv]. specialize (Hv eq_refl).
    apply elem_of_cons in Hr as [->|Hr]; [by exists 1, 5, 5|].
    apply elem_of_cons in Hr as [->|Hr]; [by exists 2, 9, 9|].
    apply elem_of_cons in Hr as [->|Hr]; [done|].
    by apply elem_of_nil in Hr.
Defined.

(** ** SubscriptionStore: bulk creation for any user *)

Lemma user_feed_map_lookup (found : list UserFeed) (m : gmap Z UserFeed)
    (fid : Z) :
  is_Some (foldl (λ m x, if uf_feed_id x is Some fid then <[fid := x]> m
                         else m) m found !! fid)
  ↔ is_Some (m !! fid) ∨ Exists (λ r, uf_feed_id r = Some fid) found.
Proof.
  revert m. induction found as [|r found IH]; intros m; simpl.
  { rewrite Exists_nil. tauto. }
  rewrite IH, Exists_cons. destruct (uf_feed_id r) as [fid'|] eqn:E.
  - destruct (decide (fid' = fid)) as [->|Hne].
    + rewrite lookup_insert_eq. split; [by auto|]. intros _. left. by eexists.
    + rewrite lookup_insert_ne by done. split; [tauto|].
      intros [?|[?|?]]; [tauto|congruence|tauto].
  - split; [tauto|]. intros [?|[?|?]]; [tauto|congruence|tauto].
Qed.

Lemma single_eq (db : DB) (user_id : Z) (url : string) :
  single db user_id url =
    match resolved_feed db url with
    | Some f =>
        if decide (Exists (binds user_id f) (tbl_user_feed db)) then None
        else Some (candidate db user_id url)
    | None => Some (candidate db user_id url)
    end.
Proof.
  unfold single, candidate. rewrite create_by_url_eq.
  destruct (resolved_feed db url) as [f|]; [|done]. by destruct (decide _).
Qed.

(** The feeds that the bulk path fetches are the feeds that the urls
    resolve to. *)
Lemma found_feeds_resolved (db : DB) (urls : list string)
    (url_map : gmap string string) (f : Feed) :
  feed_url_wf db →
  (∀ f, f ∈ tbl_feed db → feed_url f ≠ EmptyString) →
  (∀ s, url_map !! s =
      if decide (s ∈ urls)
      then fum_target <$> latest (tbl_feed_url_map db) s else None) →
  f ∈ filter (λ f, feed_url f ∈ (map_img url_map : gset string)) (tbl_feed db)
  ↔ Exists (λ url, resolved_feed db url = Some f) urls.
Proof.
  intros Hwf Hne Hlook. rewrite list_elem_of_filter, elem_of_map_img, Exists_exists.
  split.
  - intros [[url Hurl] Hf]. rewrite Hlook in Hurl.
    destruct (decide (url ∈ urls)) as [Hin|]; [|done].
    exists url. split; [done|]. apply resolved_feed_spec; [done|].
    destruct (latest _ url) as [r|] eqn:Hl; simplify_eq/=.
    exists r. split; [done|]. rewrite Hurl. split; [by apply Hne|done].
  - intros (url & Hin & Hres). apply resolved_feed_spec in Hres; [|done].
    destruct Hres as (r & Hl & _ & Hf & Hu). split; [|done].
    exists url. by rewrite Hlook, decide_True, Hl, Hu.
Qed.

Lemma found_user_feeds_eq (db : DB) (urls : list string)
    (url_map : gmap string string) (user_id : Z) :
  feed_url_wf db →
  (∀ f, f ∈ tbl_feed db → feed_url f ≠ EmptyString) →
  (∀ s, url_map !! s =
      if decide (s ∈ urls)
      then fum_target <$> latest (tbl_feed_url_map db) s else None) →
  filter (λ r, uf_user_id r = user_id
               ∧ uf_feed_id r ∈ (λ f, Some (feed_id f)) <$>
                   filter (λ f, feed_url f ∈ (map_img url_map : gset string))
                     (tbl_feed db))
    (tbl_user_feed db)
  = filter (subscribed_via db user_id urls) (tbl_user_feed db).
Proof.
  intros Hwf Hne Hlook. apply filter_ext_in. intros r _.
  unfold subscribed_via. rewrite list_elem_of_fmap, Exists_exists.
  split; intros [Hu Hr]; (split; [done|]).
  - destruct Hr as (f & Hfid & Hf).
    apply (found_feeds_resolved db urls url_map f Hwf Hne Hlook) in Hf.
    apply Exists_exists in Hf as (url & Hin & Hres). exists url.
    rewrite Hres. by eauto.
  - destruct Hr as (url & Hin & [f Hres] & Hfid). exists f.
    rewrite Hres in Hfid. split; [done|].
    apply (found_feeds_resolved db urls url_map f Hwf Hne Hlook).
    apply Exists_exists. by exists url.
Qed.

Lemma bulk_candidates_gen (db : DB) (urls all : list string)
    (url_map : gmap string string) (user_id : Z) :
  feed_url_wf db →
  (∀ f, f ∈ tbl_feed db → feed_url f ≠ EmptyString) →
  (∀ s, url_map !! s =
      if decide (s ∈ all)
      then fum_target <$> latest (tbl_feed_url_map db) s else None) →
  urls ⊆ all →
  bulk_candidates url_map
    (feed_map_of
       (filter (λ f, feed_url f ∈ (map_img url_map : gset string))
          (tbl_feed db)))
    (user_feed_map_of
       (filter (subscribed_via db user_id all) (tbl_user_feed db)))
    user_id urls
  = omap (single db user_id) urls.
Proof.
  intros Hwf Hne Hlook. induction urls as [|url urls IH]; intros Hsub; [done|].
  assert (url ∈ all) as Hin by set_solver.
  simpl. rewrite IH by set_solver. clear IH.
  rewrite (bulk_lookup db all) by done.
  rewrite single_eq. unfold candidate.
  destruct (resolved_feed db url) as [f|] eqn:Hres; [|done].
  assert (is_Some (user_feed_map_of
            (filter (subscribed_via db user_id all) (tbl_user_feed db))
            !! feed_id f)
          ↔ Exists (binds user_id f) (tbl_user_feed db)) as Hskip.
  { unfold user_feed_map_of. rewrite user_feed_map_lookup, lookup_empty.
    rewrite !Exists_exists. split.
    - intros [[? [=]]|(r & [[Hu _] Hr]%list_elem_of_filter & Hfid)].
      by exists r.
    - intros (r & Hr & Hu & Hfid). right. exists r. split; [|done].
      apply list_elem_of_filter. split; [|done]. split; [done|].
      apply Exists_exists. exists url. rewrite Hres. by eauto. }
  destruct (decide (Exists _ _)) as [Hb|Hb].
  - rewrite bool_decide_eq_true_2 by by apply Hskip. done.
  - rewrite bool_decide_eq_false_2 by by rewrite Hskip. done.
Qed.

Lemma violates_unique_app (rows more : list UserFeed) (x : UserFeed) :
  violates_unique rows x = true → violates_unique (rows ++ more) x = true.
Proof.
  unfold violates_unique. rewrite !bool_decide_eq_true, Exists_app. by left.
Qed.

(** bulk_create fails when one of the objects clashes with a stored row;
    the keys drawn up to the refused row are spent. *)
Lemma insert_all_conflict (now : Z) (objs rows : list UserFeed) (seq : Z) :
  Forall (λ x, uf_id x = None) objs →
  Exists (λ y, violates_unique rows y = true) objs →
  ∃ seq', insert_all now objs rows seq = (None, seq')
    ∧ seq < seq' ≤ seq + Z.of_nat (length objs).
Proof.
  revert rows seq. induction objs as [|x objs IH]; intros rows seq Hnew Hex.
  { by apply Exists_nil in Hex. }
  apply Forall_cons in Hnew as [Hx Hnew].
  rewrite length_cons, Nat2Z.inj_succ.
  cbn [insert_all]. unfold insert_row. rewrite Hx. cbn [default].
  destruct (pk_taken rows _ || violates_unique rows x) eqn:E.
  { exists (seq + 1). split; [done|lia]. }
  apply orb_false_iff in E as [_ Hvx].
  apply Exists_cons in Hex as [Hex|Hex]; [congruence|].
  destruct (IH (rows ++ [inserted now seq x]) (seq + 1) Hnew)
    as (seq' & -> & Hseq').
  { eapply Exists_impl; [exact Hex|].
    intros y Hy. by apply violates_unique_app. }
  exists seq'. split; [done|lia].
Qed.

(** bulk_create fails when two of the objects bind the same feed for the
    same user. *)
Lemma insert_all_clash (now : Z) (objs rows : list UserFeed) (seq user_id : Z) :
  Forall (λ x, uf_id x = None) objs →
  Forall (λ x, uf_user_id x = user_id) objs →
  ¬ NoDup (omap uf_feed_id objs) →
  ∃ seq', insert_all now objs rows seq = (None, seq')
    ∧ seq < seq' ≤ seq + Z.of_nat (length objs).
Proof.
  revert rows seq. induction objs as [|x objs IH]; intros rows seq Hnew Hu Hdup.
  { exfalso. apply Hdup. constructor. }
  apply Forall_cons in Hnew as [Hxid Hnew].
  apply Forall_cons in Hu as [Hx Hu].
  rewrite length_cons, Nat2Z.inj_succ.
  cbn [insert_all]. unfold insert_row. rewrite Hxid. cbn [default].
  destruct (pk_taken rows _ || violates_unique rows x) eqn:E.
  { exists (seq + 1). split; [done|lia]. }
  destruct (decide (NoDup (omap uf_feed_id objs))) as [Hnd|Hnd].
  - destruct (insert_all_conflict now objs (rows ++ [inserted now seq x])
                (seq + 1) Hnew) as (seq' & -> & Hseq').
    { simpl in Hdup. destruct (uf_feed_id x) as [fid|] eqn:Hfid; [|done].
      assert (fid ∈ omap uf_feed_id objs) as Hin.
      { destruct (decide (fid ∈ omap uf_feed_id objs)); [done|].
        exfalso. apply Hdup. by constructor. }
      apply list_elem_of_omap in Hin as (y & Hy & Hyf).
      apply Exists_exists. exists y. split; [done|].
      unfold violates_unique. apply bool_decide_eq_true, Exists_app. right.
      apply Exists_cons. left. simpl. rewrite Forall_forall in Hu.
      rewrite (Hu y Hy), Hx, Hyf, Hfid. by eauto. }
    exists seq'. split; [done|lia].
  - destruct (IH (rows ++ [inserted now seq x]) (seq + 1) Hnew Hu Hnd)
      as (seq' & -> & Hseq').
    exists seq'. split; [done|lia].
Qed.

Lemma single_fresh (db : DB) (user_id : Z) (url : string) (x : UserFeed) :
  single db user_id url = Some x →
  uf_id x = None ∧ uf_user_id x = user_id
  ∧ violates_unique (tbl_user_feed db) x = false.
Proof.
  rewrite single_eq. unfold candidate.
  destruct (resolved_feed db url) as [f|].
  - destruct (decide _) as [|Hfree]; [done|]. intros [= <-].
    split; [done|]. split; [done|]. apply violates_unique_false.
    intros r fid Hr Hu [= <-] Hfid. apply Hfree, Exists_exists. by exists r.
  - intros [= <-]. split; [done|]. split; [done|].
    apply violates_unique_false. by intros r fid _ _ [=].
Qed.

Lemma single_fits (db : DB) (user_id : Z) (urls : list string) :
  Forall (λ x, story_offset_fits x = true) (omap (single db user_id) urls).
Proof.
  apply Forall_forall. intros x (url & _ & Hx)%list_elem_of_omap.
  rewrite single_eq in Hx. unfold candidate in Hx.
  destruct (resolved_feed db url) as [f|]; [destruct (decide _)|];
    by simplify_eq.
Qed.

(** create_by_url_s up to the bulk insert. *)
Lemma create_by_url_s_insert (db : DB) (urls : list string)
    (user_id now batch_size : Z) :
  feed_url_wf db →
  (∀ f, f ∈ tbl_feed db → feed_url f ≠ EmptyString) →
  0 < batch_size → urls ≠ [] →
  (∀ url, url ∈ urls → single_latest (tbl_feed_url_map db) url) →
  create_by_url_s now urls user_id batch_size db =
    match insert_all now (omap (single db user_id) urls) (tbl_user_feed db)
            (user_feed_seq db) with
    | (Some (created, rows), seq) =>
        (Ok (sorted (λ y x, String.ltb (uf_url y) (uf_url x))
               (filter (subscribed_via db user_id urls) (tbl_user_feed db)
                ++ created)),
         set_user_feeds db rows seq)
    | (None, seq) =>
        (Raise IntegrityError, set_user_feeds db (tbl_user_feed db) seq)
    end.
Proof.
  intros Hwf Hne Hbatch Hurls Hone. unfold create_by_url_s.
  assert (∀ T (a b : T), match urls with [] => a | _ :: _ => b end = b) as Hm
    by (intros; by destruct urls).
  rewrite Hm. clear Hm.
  destruct (find_all_target_untied urls db Hone) as (url_map & Hrun & Hlook).
  unfold bind at 1. rewrite Hrun.
  unfold bind at 1, objects at 1. cbv zeta.
  unfold bind at 1, objects at 1.
  rewrite (found_user_feeds_eq db urls url_map user_id) by done.
  rewrite (bulk_candidates_gen db urls urls) by done.
  unfold bind, ret. rewrite bulk_create_eq by (done || apply single_fits).
  by destruct (insert_all _ _ _ _) as [[[created rows]|] seq].
Qed.

(** create_by_url_s, in every case of a store that meets its constraints. *)
Lemma create_by_url_s_gen (db : DB) (urls : list string)
    (user_id now batch_size : Z) :
  feed_url_wf db → seq_wf db →
  (∀ f, f ∈ tbl_feed db → feed_url f ≠ EmptyString) →
  0 < batch_size →
  (∀ url, url ∈ urls → single_latest (tbl_feed_url_map db) url) →
  (NoDup (omap uf_feed_id (omap (single db user_id) urls))
   ∧ ∃ created,
       create_by_url_s now urls user_id batch_size db
         = (Ok (sorted (λ y x, String.ltb (uf_url y) (uf_url x))
                  (filter (subscribed_via db user_id urls) (tbl_user_feed db)
                   ++ created)),
            set_user_feeds db (tbl_user_feed db ++ created)
              (user_feed_seq db
               + Z.of_nat (length (omap (single db user_id) urls))))
       ∧ outcome <$> created = outcome <$> omap (single db user_id) urls)
  ∨ (¬ NoDup (omap uf_feed_id (omap (single db user_id) urls))
     ∧ ∃ seq,
         create_by_url_s now urls user_id batch_size db
           = (Raise IntegrityError, set_user_feeds db (tbl_user_feed db) seq)
         ∧ user_feed_seq db < seq
             ≤ user_feed_seq db
               + Z.of_nat (length (omap (single db user_id) urls))).
Proof.
  intros Hwf Hseq Hne Hbatch Hone.
  destruct (decide (urls = [])) as [->|Hurls].
  { left. split; [constructor|]. exists []. split; [|done].
    rewrite filter_none; last first.
    { apply Forall_forall. by intros r _ [_ ?%Exists_nil]. }
    simpl. unfold ret. rewrite app_nil_r, Z.add_0_r. by destruct db. }
  rewrite create_by_url_s_insert by done.
  set (objs := omap (single db user_id) urls).
  assert (∀ x, x ∈ objs →
    uf_id x = None ∧ uf_user_id x = user_id
    ∧ violates_unique (tbl_user_feed db) x = false) as Hobjs.
  { intros x (url & _ & Hx)%list_elem_of_omap. by eapply single_fresh. }
  destruct (decide (NoDup (omap uf_feed_id objs))) as [Hnd|Hdup].
  - left. split; [done|].
    destruct (insert_all_ok now objs (tbl_user_feed db) (user_feed_seq db))
      as (created & Hins & Hout).
    + intros r pk Hr Hpk. unfold seq_wf in Hseq. rewrite Forall_forall in Hseq.
      by apply (Hseq r).
    + apply Forall_forall. intros x Hx. by apply Hobjs.
    + intros x Hx. by apply Hobjs.
    + done.
    + exists created. by rewrite Hins.
  - right. split; [done|].
    destruct (insert_all_clash now objs (tbl_user_feed db) (user_feed_seq db)
                user_id) as (seq & -> & Hb); [| |done|by exists seq].
    + apply Forall_forall. intros x Hx. by apply Hobjs.
    + apply Forall_forall. intros x Hx. by apply Hobjs.
Qed.

Lemma string_ltb_asym a b : String.ltb a b = true → String.ltb b a = false.
Proof.
  rewrite !string_ltb_leb, negb_true_iff, negb_false_iff. intros H.
  destruct (String.leb_total a b); congruence.
Qed.

Lemma string_ltb_negtrans a b c :
  String.ltb a b = false → String.ltb b c = false → String.ltb a c = false.
Proof. rewrite !string_ltb_false. intros ??. by etrans. Qed.

Lemma sorted_by_url (l : list UserFeed) :
  StronglySorted (λ y x, (uf_url y ≤ uf_url x)%string)
    (sorted (λ y x, String.ltb (uf_url y) (uf_url x)) l).
Proof.
  pose proof (sorted_strongly (λ y x, String.ltb (uf_url y) (uf_url x))
    (λ a b, string_ltb_asym _ _) (λ a b c, string_ltb_negtrans _ _ _) l)
    as Hs.
  induction Hs as [|y k _ IH Hy]; constructor; [done|].
  eapply Forall_impl; [exact Hy|]. intros x Hx.
  by apply string_ltb_false in Hx.
Qed.

(** X9: On a store that meets its constraints, for urls none of which has
    several mappings that share its greatest dt_created, when no two of the
    new subscriptions bind the same feed, create_by_url_s creates one
    subscription for each entry of the list on which create_by_url does
    not raise, with the outcome create_by_url gives, and skips the entries
    on which it raises (the user is subscribed to the feed already); it
    returns the created subscriptions together with the user's stored
    subscriptions to the feeds that the urls resolve to, in ascending order
    of url, appends the created ones to the store and leaves the stored
    rows, the feeds and the mappings as they were. *)
Theorem create_by_url_s_result (db : DB) (urls : list string)
    (user_id now batch_size : Z) :
  feed_url_wf db → seq_wf db →
  (∀ f, f ∈ tbl_feed db → feed_url f ≠ EmptyString) →
  0 < batch_size →
  (∀ url, url ∈ urls → single_latest (tbl_feed_url_map db) url) →
  NoDup (omap uf_feed_id (omap (single db user_id) urls)) →
  ∃ user_feeds created db',
    create_by_url_s now urls user_id batch_size db = (Ok user_feeds, db')
    ∧ user_feeds ≡ₚ
        filter (subscribed_via db user_id urls) (tbl_user_feed db) ++ created
    ∧ outcome <$> created = outcome <$> omap (single db user_id) urls
    ∧ StronglySorted (λ y x, (uf_url y ≤ uf_url x)%string) user_feeds
    ∧ tbl_user_feed db' = tbl_user_feed db ++ created
    ∧ tbl_feed db' = tbl_feed db
    ∧ tbl_feed_url_map db' = tbl_feed_url_map db.
Proof.
  intros Hwf Hseq Hne Hbatch Hone Hnd.
  destruct (create_by_url_s_gen db urls user_id now batch_size)
    as [(_ & created & Hrun & Hout)|[Hdup _]]; [done..| |done].
  eexists _, created, _. split; [exact Hrun|].
  split; [apply sorted_perm|]. split; [done|]. split; [|done].
  apply sorted_by_url.
Qed.

Lemma create_by_url_s_result_witness :
  ∃ user_feeds created db',
    create_by_url_s 100 [url_b_feed; url_a_feed] 7 500 db_subs
      = (Ok user_feeds, db')
    ∧ user_feeds ≡ₚ
        filter (subscribed_via db_subs 7 [url_b_feed; url_a_feed])
          (tbl_user_feed db_subs) ++ created
    ∧ outcome <$> created
      = outcome <$> omap (single db_subs 7) [url_b_feed; url_a_feed]
    ∧ StronglySorted (λ y x, (uf_url y ≤ uf_url x)%string) user_feeds
    ∧ tbl_user_feed db' = tbl_user_feed db_subs ++ created
    ∧ tbl_feed db' = tbl_feed db_subs
    ∧ tbl_feed_url_map db' = tbl_feed_url_map db_subs.
Proof.
  apply (create_by_url_s_result db_subs [url_b_feed; url_a_feed] 7 100 500).
  - unfold feed_url_wf. simpl. apply NoDup_singleton.
  - unfold seq_wf. simpl. repeat constructor; intros pk [= <-]; lia.
  - simpl. intros f ->%list_elem_of_singleton. discriminate.
  - lia.
  - simpl. intros url _ r r' Hr Hr' _ _ _ _.
    apply list_elem_of_singleton in Hr, Hr'. congruence.
  - vm_compute. constructor.
Defined.

(** The witness store in figures: the url the user is subscribed to is
    skipped and its stored subscription returned, the unknown url gets a
    pending subscription with the next key. *)
Example create_by_url_s_existing_scenario :
  fst (create_by_url_s 100 [url_b_feed; url_a_feed] 7 500 db_subs)
  = Ok [sub_1; inserted 100 4 (new_user_feed 7 None url_b_feed PENDING)].
Proof. by vm_compute. Qed.

(** X10: On a store that meets its constraints, for urls none of which has
    several mappings that share its greatest dt_created, when two of the
    new subscriptions would bind the same feed (a url given twice, or two
    urls that resolve to one feed), create_by_url_s raises IntegrityError
    and none of the subscriptions is stored: the subscriptions, the feeds
    and the mappings are as before.  The primary keys drawn for the rows of
    the failed insert are spent: the key sequence has moved on, by at most
    one key per subscription that was to be created. *)
Theorem create_by_url_s_all_or_nothing (db : DB) (urls : list string)
    (user_id now batch_size : Z) :
  feed_url_wf db → seq_wf db →
  (∀ f, f ∈ tbl_feed db → feed_url f ≠ EmptyString) →
  0 < batch_size →
  (∀ url, url ∈ urls → single_latest (tbl_feed_url_map db) url) →
  ¬ NoDup (omap uf_feed_id (omap (single db user_id) urls)) →
  ∃ db',
    create_by_url_s now urls user_id batch_size db
      = (Raise IntegrityError, db')
    ∧ tbl_user_feed db' = tbl_user_feed db
    ∧ tbl_feed db' = tbl_feed db
    ∧ tbl_feed_url_map db' = tbl_feed_url_map db
    ∧ user_feed_seq db < user_feed_seq db'
        ≤ user_feed_seq db
          + Z.of_nat (length (omap (single db user_id) urls)).
Proof.
  intros Hwf Hseq Hne Hbatch Hone Hdup.
  destruct (create_by_url_s_gen db urls user_id now batch_size)
    as [(Hnd & _)|[_ (seq & Hrun & Hb)]]; [done..|].
  eexists. split; [exact Hrun|]. done.
Qed.

Lemma create_by_url_s_all_or_nothing_witness :
  ∃ db',
    create_by_url_s 100 [url_a_feed; url_b_feed; url_a_feed] 7 500 db_a
      = (Raise IntegrityError, db')
    ∧ tbl_user_feed db' = tbl_user_feed db_a
    ∧ tbl_feed db' = tbl_feed db_a
    ∧ tbl_feed_url_map db' = tbl_feed_url_map db_a
    ∧ user_feed_seq db_a < user_feed_seq db'
        ≤ user_feed_seq db_a
          + Z.of_nat (length (omap (single db_a 7)
                                [url_a_feed; url_b_feed; url_a_feed])).
Proof.
  apply (create_by_url_s_all_or_nothing db_a
           [url_a_feed; url_b_feed; url_a_feed] 7 100 500).
  - unfold feed_url_wf. simpl. apply NoDup_singleton.
  - unfold seq_wf. simpl. constructor.
  - simpl. intros f ->%list_elem_of_singleton. discriminate.
  - lia.
  - simpl. intros url _ r r' Hr Hr' _ _ _ _.
    apply list_elem_of_singleton in Hr, Hr'. congruence.
  - vm_compute. intros H. apply NoDup_cons in H as [H _]. apply H. by left.
Defined.

(** The witness store in figures: the third row is refused, the three keys
    drawn are spent and the next subscription is stored under key 4. *)
Example create_by_url_s_failed_scenario :
  create_by_url_s 100 [url_a_feed; url_b_feed; url_a_feed] 7 500 db_a
    = (Raise IntegrityError, mkDB [feed_a] [] [map_a_rss] 4)
  ∧ (uf_id <$> default []
       (match fst (create_by_url_s 101 [url_b_feed] 7 500
                     (mkDB [feed_a] [] [map_a_rss] 4)) with
        | Ok l => Some l
        | Raise _ => None
        end)) = [Some 4].
Proof. split; by vm_compute. Qed.

(** ** SubscriptionStore: what update_story_offset leaves alone *)




(** The witness store in figures: after the update a scan yields
    subscription 2 behind subscriptions 1 and 3, and the user's listing
    shows it last. *)
Example update_story_offset_moves_row :
  ∃ self' db',
    update_story_offset 50 sub_2 3 db_subs = (Ok self', db')
    ∧ uf_id <$> tbl_user_feed db' = [Some 1; Some 3; Some 2]
    ∧ fst (query_by_user 7 None false true db')
      = Ok (PyList [sub_1; sub_3; self']).
Proof. eexists _, _. split; [reflexivity|]. split; by vm_compute. Qed.

(** X15: update_story_offset on a stored subscription with an offset outside
    the 32-bit range of the story_offset column raises DataError and stores
    nothing. *)
Theorem update_story_offset_out_of_range (db : DB) (self : UserFeed)
    (offset now : Z) :
  self ∈ tbl_user_feed db →
  ¬ int4 offset →
  update_story_offset now self offset db = (Raise DataError, db).
Proof.
  intros _ Hfit. unfold update_story_offset, save, story_offset_fits. simpl.
  by rewrite bool_decide_eq_false_2.
Qed.

Lemma update_story_offset_out_of_range_witness :
  update_story_offset 50 sub_1 2147483648 db_subs = (Raise DataError, db_subs).
Proof.
  apply (update_story_offset_out_of_range db_subs sub_1 2147483648 50).
  - simpl. by left.
  - unfold int4. lia.
Defined.

(** ** Serialisation *)

(** X12: For a subscription bound to a feed, to_dict with detail raises
    (TypeError, in the subtraction) when the feed's total_storys or the
    subscription's story_offset is None.  Otherwise it returns a dict that
    shows the feed's url and dt_updated and the subscription's own id, user,
    dt_created and story_offset; its status is the feed's when the
    subscription is ready and the subscription's otherwise; its title is
    the user's title when that is set and the feed's otherwise; the unread
    count, total_storys less story_offset, is there with detail only. *)
Theorem to_dict_bound (self : UserFeed) (f : Feed) (cols : FeedColumns)
    (detail : bool) :
  int_truthy (uf_feed_id self) = true →
  (detail = true →
   feed_total_storys f = None ∨ uf_story_offset self = None →
   UserFeed_to_dict self (Some (f, cols)) detail = None)
  ∧ ((detail = true →
      is_Some (feed_total_storys f) ∧ is_Some (uf_story_offset self)) →
     ∃ d, UserFeed_to_dict self (Some (f, cols)) detail = Some d
       ∧ d !! "url" = Some (PStr (feed_url f))
       ∧ d !! "dt_updated" = Some (PTime (feed_dt_updated f))
       ∧ d !! "id" = Some (py_int (uf_id self))
       ∧ d !! "user" = Some (PDict [("id", PInt (uf_user_id self))])
       ∧ d !! "dt_created" = Some (py_time (uf_dt_created self))
       ∧ d !! "story_offset" = Some (py_int (uf_story_offset self))
       ∧ d !! "status"
         = Some (PStr (status_value
                         (if is_ready self then feed_status f
                          else uf_status self)))
       ∧ d !! "title"
         = Some (if str_truthy (uf_title self) then py_str (uf_title self)
                 else py_str (feed_title f))
       ∧ (detail = false → d !! "num_unread_storys" = None)
       ∧ (∀ total offset,
            detail = true → feed_total_storys f = Some total →
            uf_story_offset self = Some offset →
            d !! "num_unread_storys" = Some (PInt (total - offset)))).
Proof.
  intros Hbound. unfold UserFeed_to_dict, is_ready, py_sub. rewrite Hbound.
  split.
  { intros -> [->| ->]; [done|]. by destruct (feed_total_storys f). }
  intros Hcount.
  assert (detail = true →
          ∃ total offset, feed_total_storys f = Some total
                          ∧ uf_story_offset self = Some offset) as Hc.
  { intros Hd. destruct (Hcount Hd) as [[total ?] [offset ?]]. by eauto. }
  destruct detail.
  - destruct (Hc eq_refl) as (total & offset & Ht & Ho). rewrite Ht, Ho.
    eexists. split; [done|].
    destruct (str_truthy (uf_title self)),
      (decide (uf_status self = READY)) as [Hs|Hs];
      rewrite ?(bool_decide_eq_true_2 _ Hs), ?(bool_decide_eq_false_2 _ Hs);
      rewrite ?(bool_decide_eq_false_2 (uf_status self ≠ READY))
        by (by intros ?);
      rewrite ?(bool_decide_eq_true_2 (uf_status self ≠ READY)) by done;
      repeat split; try reflexivity; try done;
      by intros ? ? _ [= <-] [= <-].
  - eexists. split; [done|].
    destruct (str_truthy (uf_title self)),
      (decide (uf_status self = READY)) as [Hs|Hs];
      rewrite ?(bool_decide_eq_true_2 _ Hs), ?(bool_decide_eq_false_2 _ Hs);
      rewrite ?(bool_decide_eq_false_2 (uf_status self ≠ READY))
        by (by intros ?);
      rewrite ?(bool_decide_eq_true_2 (uf_status self ≠ READY)) by done;
      repeat split; try reflexivity; done.
Qed.

(** X13: The dict of a subscription that is bound to no feed (the foreign key
    is missing, or 0) shows the url the user entered and the
    subscription's own dt_updated; it has a status entry only when the
    subscription is not ready and a title entry only when the user set a
    title, and detail adds nothing to it. *)
Theorem to_dict_unbound (self : UserFeed) (feed : option (Feed * FeedColumns))
    (detail : bool) :
  int_truthy (uf_feed_id self) = false →
  ∃ d, UserFeed_to_dict self feed detail = Some d
    ∧ d !! "url" = Some (PStr (uf_url self))
    ∧ d !! "dt_updated" = Some (py_time (uf_dt_updated self))
    ∧ d !! "status"
      = (if is_ready self then None
         else Some (PStr (status_value (uf_status self))))
    ∧ d !! "title"
      = (if str_truthy (uf_title self) then Some (py_str (uf_title self))
         else None)
    ∧ dom d
      = list_to_set ["url"; "dt_updated"; "id"; "user"; "dt_created";
                     "story_offset"]
        ∪ (if str_truthy (uf_title self) then {["title"]} else ∅)
        ∪ (if is_ready self then ∅ else {["status"]}).
Proof.
  intros Hfree. unfold UserFeed_to_dict, is_ready. rewrite Hfree.
  eexists. split; [done|].
  destruct (str_truthy (uf_title self)),
    (decide (uf_status self = READY)) as [Hs|Hs];
    rewrite ?(bool_decide_eq_true_2 _ Hs), ?(bool_decide_eq_false_2 _ Hs);
    rewrite ?(bool_decide_eq_false_2 (uf_status self ≠ READY)) by (by intros ?);
    rewrite ?(bool_decide_eq_true_2 (uf_status self ≠ READY)) by done;
    repeat split; try reflexivity; by vm_compute.
Qed.

(** X14: When the dict of a subscription without detail exists and, for a
    subscription bound to a feed, the feed's total_storys and the
    subscription's story_offset are both present, the dict with detail
    exists as well and is the plain dict and further entries: every entry
    of the plain dict is in the detailed one with the same value. *)
Theorem to_dict_detail_extends (self : UserFeed)
    (feed : option (Feed * FeedColumns)) (plain : gmap string PyVal) :
  UserFeed_to_dict self feed false = Some plain →
  (∀ f cols, int_truthy (uf_feed_id self) = true → feed = Some (f, cols) →
     is_Some (feed_total_storys f) ∧ is_Some (uf_story_offset self)) →
  ∃ detailed, UserFeed_to_dict self feed true = Some detailed
    ∧ plain ⊆ detailed.
Proof.
  unfold UserFeed_to_dict, py_sub.
  destruct (int_truthy (uf_feed_id self)); last first.
  { intros [= <-] _. eexists. split; [done|]. done. }
  destruct feed as [[f cols]|]; [|done]. intros [= <-] Hcount.
  destruct (Hcount f cols eq_refl eq_refl) as [[total Ht] [offset Ho]].
  rewrite Ht, Ho.
  eexists. split; [done|].
  match goal with |- ?d0 ⊆ ?d1 =>
    assert (d1 = d0 ∪ dict_update
      [("total_storys", PInt total);
       ("encoding", py_str (fc_encoding cols));
       ("etag", py_str (fc_etag cols));
       ("last_modified", py_str (fc_last_modified cols));
       ("content_length", py_int (fc_content_length cols));
       ("content_hash_base64", py_str (fc_content_hash_base64 cols));
       ("dt_checked", py_time (fc_dt_checked cols));
       ("dt_synced", py_time (fc_dt_synced cols));
       ("num_unread_storys", PInt (total - offset))] ∅) as ->
  end.
  { unfold Feed_to_dict. rewrite Ht.
    destruct (str_truthy (uf_title self)),
      (bool_decide (uf_status self ≠ READY)); reflexivity. }
  apply map_union_subseteq_l.
Qed.

Lemma to_dict_bound_witness :
  (true = true →
   feed_total_storys feed_a = None ∨ uf_story_offset sub_1 = None →
   UserFeed_to_dict sub_1 (Some (feed_a, cols_a)) true = None)
  ∧ ((true = true →
      is_Some (feed_total_storys feed_a) ∧ is_Some (uf_story_offset sub_1)) →
     ∃ d, UserFeed_to_dict sub_1 (Some (feed_a, cols_a)) true = Some d
       ∧ d !! "url" = Some (PStr (feed_url feed_a))
       ∧ d !! "dt_updated" = Some (PTime (feed_dt_updated feed_a))
       ∧ d !! "id" = Some (py_int (uf_id sub_1))
       ∧ d !! "user" = Some (PDict [("id", PInt (uf_user_id sub_1))])
       ∧ d !! "dt_created" = Some (py_time (uf_dt_created sub_1))
       ∧ d !! "story_offset" = Some (py_int (uf_story_offset sub_1))
       ∧ d !! "status"
         = Some (PStr (status_value
                         (if is_ready sub_1 then feed_status feed_a
                          else uf_status sub_1)))
       ∧ d !! "title"
         = Some (if str_truthy (uf_title sub_1) then py_str (uf_title sub_1)
                 else py_str (feed_title feed_a))
       ∧ (true = false → d !! "num_unread_storys" = None)
       ∧ (∀ total offset,
            true = true → feed_total_storys feed_a = Some total →
            uf_story_offset sub_1 = Some offset →
            d !! "num_unread_storys" = Some (PInt (total - offset)))).
Proof. apply (to_dict_bound sub_1 feed_a cols_a true). reflexivity. Defined.

(** A bound subscription whose story_offset is NULL: the plain dict is
    there, the detailed one is not. *)
Example to_dict_null_offset :
  let sub := mkUserFeed (Some 1) 7 (Some 1) READY url_a_feed None None
               (Some 0) (Some 5) in
  is_Some (UserFeed_to_dict sub (Some (feed_a, cols_a)) false)
  ∧ UserFeed_to_dict sub (Some (feed_a, cols_a)) true = None.
Proof. split; [by eexists|done]. Qed.

Lemma to_dict_unbound_witness :
  ∃ d, UserFeed_to_dict sub_3 None false = Some d
    ∧ d !! "url" = Some (PStr (uf_url sub_3))
    ∧ d !! "dt_updated" = Some (py_time (uf_dt_updated sub_3))
    ∧ d !! "status"
      = (if is_ready sub_3 then None
         else Some (PStr (status_value (uf_status sub_3))))
    ∧ d !! "title"
      = (if str_truthy (uf_title sub_3) then Some (py_str (uf_title sub_3))
         else None)
    ∧ dom d
      = list_to_set ["url"; "dt_updated"; "id"; "user"; "dt_created";
                     "story_offset"]
        ∪ (if str_truthy (uf_title sub_3) then {["title"]} else ∅)
        ∪ (if is_ready sub_3 then ∅ else {["status"]}).
Proof. apply (to_dict_unbound sub_3 None false). reflexivity. Defined.

Lemma to_dict_detail_extends_witness :
  ∃ detailed,
    UserFeed_to_dict sub_1 (Some (feed_a, cols_a)) true = Some detailed
    ∧ default ∅ (UserFeed_to_dict sub_1 (Some (feed_a, cols_a)) false)
      ⊆ detailed.
Proof.
  apply (to_dict_detail_extends sub_1 (Some (feed_a, cols_a)));
    [reflexivity|].
  intros f cols _ [= <- <-]. split; by eexists.
Defined.

(** ** SubscriptionStore: deletion and the listing *)

Lemma delete_by_pk_eq (pk : Z) (user_id : option Z) (db : DB) (r : UserFeed) :
  pk_wf (tbl_user_feed db) →
  get_by_pk pk user_id false db = inr r →
  delete_by_pk pk user_id db
  = (inr (),
     set_user_feeds db (filter (λ x, x ≠ r) (tbl_user_feed db))
       (user_feed_seq db)).
Proof.
  intros Hpk Hget. unfold delete_by_pk. rewrite Hget. do 2 f_equal.
  destruct (get_by_pk_cases pk user_id false db Hpk)
    as [(r' & Hget' & Hr & _)|[Hno _]]; [|congruence].
  assert (r' = r) as -> by congruence.
  apply filter_ext_in. intros x Hx. destruct Hpk as [_ Hnd]. split.
  - by intros Hne ->.
  - intros Hne Heq. apply Hne.
    by apply (unique_key_inj uf_id (tbl_user_feed db)).
Qed.

(** X3: After delete_by_pk the user's listing (query_by_user without hints) is
    the listing from before without the deleted subscription, the others
    in their order; the listings of other users do not change. *)
Theorem delete_by_pk_then_query (pk user_id : Z) (db : DB) (r : UserFeed)
    (detail show_pending : bool) :
  pk_wf (tbl_user_feed db) →
  get_by_pk pk (Some user_id) false db = inr r →
  ∃ db' before,
    delete_by_pk pk (Some user_id) db = (inr (), db')
    ∧ fst (query_by_user user_id None detail show_pending db)
      = Ok (PyList before)
    ∧ fst (query_by_user user_id None detail show_pending db')
      = Ok (PyList (filter (λ x, x ≠ r) before))
    ∧ ∀ other, other ≠ user_id →
        fst (query_by_user other None detail show_pending db')
        = fst (query_by_user other None detail show_pending db).
Proof.
  intros Hpk Hget. rewrite (delete_by_pk_eq pk (Some user_id) db r Hpk Hget).
  eexists _, _. split; [done|].
  unfold query_by_user, bind, objects, ret. simpl.
  rewrite !filter_visible. split; [done|]. split.
  - do 2 f_equal. rewrite !list_filter_filter. apply filter_ext_in.
    intros x _. tauto.
  - intros other Hother. rewrite !filter_visible. do 2 f_equal.
    rewrite list_filter_filter. apply filter_ext_in. intros x Hx.
    split; [by intros [? _]|]. intros Hv. split; [done|]. intros ->.
    destruct (get_by_pk_cases pk (Some user_id) false db Hpk)
      as [(r' & Hget' & _ & _ & Hscope)|[Hno _]]; [|congruence].
    assert (r' = r) as -> by congruence.
    destruct Hv as [Hu _]. specialize (Hscope user_id eq_refl). congruence.
Qed.

Lemma delete_by_pk_then_query_witness :
  ∃ db' before,
    delete_by_pk 1 (Some 7) db_subs = (inr (), db')
    ∧ fst (query_by_user 7 None false true db_subs) = Ok (PyList before)
    ∧ fst (query_by_user 7 None false true db')
      = Ok (PyList (filter (λ x, x ≠ sub_1) before))
    ∧ ∀ other, other ≠ 7 →
        fst (query_by_user other None false true db')
        = fst (query_by_user other None false true db_subs).
Proof.
  apply (delete_by_pk_then_query 1 7 db_subs sub_1 false true).
  - split; [simpl; repeat constructor; by eexists|simpl; compute_done].
  - reflexivity.
Defined.

(** ** SubscriptionStore: what the hints are read for *)

(** X8: query_by_user reads the hints only at the ids of the user's visible
    subscriptions: two hint lists that agree there give the same result.
    In particular a hint for an id that is not among them (a deleted
    subscription, another user's) changes nothing. *)
Theorem query_by_user_hints_elsewhere (db : DB) (user_id : Z)
    (hint1 hint2 : Hint) (hints1 hints2 : list Hint)
    (detail show_pending : bool) :
  pk_wf (tbl_user_feed db) →
  (∀ r i, r ∈ tbl_user_feed db → visible user_id show_pending r →
          uf_id r = Some i →
          hints_dict (hint1 :: hints1) !! i
          = hints_dict (hint2 :: hints2) !! i) →
  query_by_user user_id (Some (hint1 :: hints1)) detail show_pending db
  = query_by_user user_id (Some (hint2 :: hints2)) detail show_pending db.
Proof.
  intros Hpk Hagree. rewrite !query_by_user_eq by done.
  set (H1 := hints_dict (hint1 :: hints1)) in *.
  set (H2 := hints_dict (hint2 :: hints2)) in *.
  assert (∀ r, r ∈ tbl_user_feed db → visible user_id show_pending r →
    uf_id r ≫= (H1 !!.) = uf_id r ≫= (H2 !!.)) as Hbind.
  { intros r Hr Hv. destruct (uf_id r) as [i|] eqn:Hi; [|done].
    simpl. by apply (Hagree r). }
  assert (filter (λ r, visible user_id show_pending r ∧ changed_since H1 r)
            (tbl_user_feed db)
          = filter (λ r, visible user_id show_pending r ∧ changed_since H2 r)
              (tbl_user_feed db)) as ->.
  { apply filter_ext_in. intros r Hr. unfold changed_since.
    split; intros [Hv Hc]; (split; [done|]);
      [rewrite <-(Hbind r Hr Hv)|rewrite (Hbind r Hr Hv)]; done. }
  assert (Exists (hinted_null H1)
            (filter (visible user_id show_pending) (tbl_user_feed db))
          ↔ Exists (hinted_null H2)
              (filter (visible user_id show_pending) (tbl_user_feed db)))
    as Hnull.
  { rewrite !Exists_exists. unfold hinted_null.
    split; intros (r & Hr & Hd & Hh); exists r; (split; [done|]);
      (split; [done|]); apply list_elem_of_filter in Hr as [Hv Hr];
      [rewrite <-(Hbind r Hr Hv)|rewrite (Hbind r Hr Hv)]; done. }
  destruct (decide (Exists (hinted_null H1) _)) as [Hn1|Hn1],
    (decide (Exists (hinted_null H2) _)) as [Hn2|Hn2]; try done.
  - exfalso. by apply Hn2, Hnull.
  - exfalso. by apply Hn1, Hnull.
Qed.

Lemma query_by_user_hints_elsewhere_witness :
  query_by_user 7 (Some [mkHint 1 5; mkHint 99 0]) false false db_subs
  = query_by_user 7 (Some [mkHint 1 5]) false false db_subs.
Proof.
  apply (query_by_user_hints_elsewhere db_subs 7 (mkHint 1 5) (mkHint 1 5)
           [mkHint 99 0] [] false false).
  - split; [simpl; repeat constructor; by eexists|simpl; compute_done].
  - simpl. intros r i Hr [_ Hv]. specialize (Hv eq_refl).
    apply elem_of_cons in Hr as [->|Hr]; [by intros [= <-]|].
    apply elem_of_cons in Hr as [->|Hr]; [by intros [= <-]|].
    apply elem_of_cons in Hr as [->|Hr]; [done|].
    by apply elem_of_nil in Hr.
Defined.
